(** * Verification of the OAuth callback handler (api/oauth-callback.js)

    The development embeds the single exported function [handler] of
    [oauth-callback.js] together with the parts of the Node.js runtime it
    calls ([crypto.createHmac], [Buffer.from(_, 'hex')],
    [crypto.timingSafeEqual], [fetch], [JSON.stringify], the response
    helpers [status], [json], [setHeader], [send] and [console]).

    Modelling conventions.
    - A JavaScript string is a [string]: the sequence of the bytes of its
      UTF-8 encoding.  [Hmac.update] hashes exactly these bytes.  The
      default order of [Array.prototype.sort] is the order of the UTF-16
      code units, which coincides with the byte order used here on every
      pair of names without supplementary-plane characters.
    - [undefined] is [None]; a query parameter or an environment variable
      that is present is [Some] of a string.
    - A 32-bit word is a [Z] in the range [0, 2^32) with the wrap-around
      written out; a [Buffer] is a [list byte].
    - The external world (the response object, the console, the network
      and the crypto library) is an explicit state: the response under
      construction and the trace of the external calls made so far. *)

From Stdlib Require Import ZArith List Bool Lia.
From Stdlib.Strings Require Import String Ascii Byte.
From Stdlib Require Import Sorted Permutation.
Import ListNotations.

Local Open Scope string_scope.
Local Open Scope Z_scope.

(* ================================================================== *)
(** ** Bytes and strings *)

Definition Buffer := list byte.

Definition Z_of_byte (b : byte) : Z := Z.of_N (Byte.to_N b).

Definition byte_of_Z (z : Z) : byte :=
  byte_of_ascii (ascii_of_N (Z.to_N (z mod 256))).

(** The UTF-8 bytes of a string (the strings of the model are UTF-8
    already). *)
Definition utf8 (s : string) : Buffer := list_byte_of_string s.

(** The double quote character, and a string put between double quotes. *)
Definition dq : string := String (ascii_of_nat 34) EmptyString.

Definition quoted (s : string) : string := dq ++ s ++ dq.

(** [String.prototype.includes]: is [needle] a substring of [hay]? *)
Fixpoint includes (needle hay : string) : bool :=
  if String.prefix needle hay then true
  else match hay with
       | EmptyString => false
       | String _ rest => includes needle rest
       end.

(* ================================================================== *)
(** ** SHA-256 (FIPS 180-4) and HMAC (RFC 2104), as computed by
       [crypto.createHmac('sha256', key).update(message).digest()] *)

Module SHA256.

Local Open Scope list_scope.

Definition w32 (x : Z) : Z := x mod 2 ^ 32.

Definition add32 (x y : Z) : Z := w32 (x + y).

Definition rotr (n x : Z) : Z :=
  Z.lor (Z.shiftr x n) (w32 (Z.shiftl x (32 - n))).

Definition not32 (x : Z) : Z := Z.lxor x 4294967295.

Definition Ch (x y z : Z) : Z :=
  Z.lxor (Z.land x y) (Z.land (not32 x) z).

Definition Maj (x y z : Z) : Z :=
  Z.lxor (Z.lxor (Z.land x y) (Z.land x z)) (Z.land y z).

Definition Sigma0 (x : Z) : Z :=
  Z.lxor (Z.lxor (rotr 2 x) (rotr 13 x)) (rotr 22 x).

Definition Sigma1 (x : Z) : Z :=
  Z.lxor (Z.lxor (rotr 6 x) (rotr 11 x)) (rotr 25 x).

Definition sigma0 (x : Z) : Z :=
  Z.lxor (Z.lxor (rotr 7 x) (rotr 18 x)) (Z.shiftr x 3).

Definition sigma1 (x : Z) : Z :=
  Z.lxor (Z.lxor (rotr 17 x) (rotr 19 x)) (Z.shiftr x 10).

(** The constants are derived as the standard defines them.  The round
    constants are the first 32 bits of the fractional parts of the cube
    roots of the first 64 primes, the initial hash value those of the
    square roots of the first 8 primes. *)
Definition is_prime (n : Z) : bool :=
  forallb (fun d => negb (n mod d =? 0))
    (map Z.of_nat (seq 2 (Z.to_nat n - 2))).

Definition first_primes : list Z :=
  filter is_prime (map Z.of_nat (seq 2 310)).

(** The integer cube root of [n], bit by bit from bit [i] down. *)
Fixpoint cube_root (i : nat) (n r : Z) : Z :=
  match i with
  | O => r
  | S i' =>
      let c := r + 2 ^ Z.of_nat i' in
      cube_root i' n (if c * c * c <=? n then c else r)
  end.

Definition cube_root_fraction (p : Z) : Z :=
  w32 (cube_root 36 (p * 2 ^ 96) 0).

Definition square_root_fraction (p : Z) : Z :=
  w32 (Z.sqrt (p * 2 ^ 64)).

Definition K : list Z :=
  Eval vm_compute in map cube_root_fraction first_primes.

(** The eight working variables, and the initial hash value. *)
Record regs := Regs
  { ra : Z; rb : Z; rc : Z; rd : Z; re : Z; rf : Z; rg : Z; rh : Z }.

Definition regs_of (l : list Z) : regs :=
  Regs (nth 0 l 0) (nth 1 l 0) (nth 2 l 0) (nth 3 l 0)
       (nth 4 l 0) (nth 5 l 0) (nth 6 l 0) (nth 7 l 0).

Definition H0 : regs :=
  Eval vm_compute in regs_of (map square_root_fraction (firstn 8 first_primes)).

(** Padding: the bit 1, zeros up to 56 modulo 64 bytes, and the bit length
    of the message as a 64-bit big-endian integer. *)
Fixpoint be_bytes (n : nat) (x : Z) : list Z :=
  match n with
  | O => []
  | S n' => (Z.shiftr x (8 * Z.of_nat n')) mod 256 :: be_bytes n' x
  end.

Definition pad (m : list Z) : list Z :=
  let len := Z.of_nat (List.length m) in
  let zeros := Z.to_nat ((55 - len) mod 64) in
  m ++ [128] ++ repeat 0 zeros ++ be_bytes 8 (8 * len).

(** Big-endian 32-bit words of a byte sequence. *)
Fixpoint words (fuel : nat) (bs : list Z) : list Z :=
  match fuel, bs with
  | S fuel', b0 :: b1 :: b2 :: b3 :: rest =>
      (Z.shiftl b0 24 + Z.shiftl b1 16 + Z.shiftl b2 8 + b3)
        :: words fuel' rest
  | _, _ => []
  end.

(** The message schedule: [n] more words after those of [w]. *)
Fixpoint schedule (n : nat) (w : list Z) : list Z :=
  match n with
  | O => w
  | S n' =>
      let t := List.length w in
      let at_ (i : nat) := nth (t - i) w 0 in
      schedule n'
        (w ++ [w32 (sigma1 (at_ 2%nat) + at_ 7%nat
                    + sigma0 (at_ 15%nat) + at_ 16%nat)])
  end.

Definition round (r : regs) (kw : Z * Z) : regs :=
  let '(k, w) := kw in
  let t1 := w32 (rh r + Sigma1 (re r) + Ch (re r) (rf r) (rg r) + k + w) in
  let t2 := w32 (Sigma0 (ra r) + Maj (ra r) (rb r) (rc r)) in
  Regs (add32 t1 t2) (ra r) (rb r) (rc r) (add32 (rd r) t1)
       (re r) (rf r) (rg r).

Definition compress (h : regs) (block : list Z) : regs :=
  let r := fold_left round (combine K (schedule 48 block)) h in
  Regs (add32 (ra h) (ra r)) (add32 (rb h) (rb r))
       (add32 (rc h) (rc r)) (add32 (rd h) (rd r))
       (add32 (re h) (re r)) (add32 (rf h) (rf r))
       (add32 (rg h) (rg r)) (add32 (rh h) (rh r)).

(** The 16-word blocks of the padded message, hashed in turn. *)
Fixpoint blocks (fuel : nat) (h : regs) (ws : list Z) : regs :=
  match fuel, ws with
  | S fuel', _ :: _ => blocks fuel' (compress h (firstn 16 ws)) (skipn 16 ws)
  | _, _ => h
  end.

Definition digest_bytes (r : regs) : list Z :=
  flat_map (be_bytes 4)
    [ra r; rb r; rc r; rd r; re r; rf r; rg r; rh r].

Definition sha256 (m : Buffer) : Buffer :=
  let p := pad (map Z_of_byte m) in
  let ws := words (List.length p) p in
  map byte_of_Z (digest_bytes (blocks (List.length ws) H0 ws)).

(** HMAC: a key longer than the 64-byte block is hashed first, a shorter
    one is padded with zero bytes. *)
Definition block_key (key : Buffer) : list Z :=
  let k := if (64 <? Z.of_nat (List.length key)) then sha256 key else key in
  map Z_of_byte k ++ repeat 0 (64 - List.length k)%nat.

Definition xor_pad (c : Z) (k : list Z) : Buffer :=
  map (fun b => byte_of_Z (Z.lxor b c)) k.

Definition hmac (key msg : Buffer) : Buffer :=
  let k := block_key key in
  sha256 (xor_pad 0x5c k ++ sha256 (xor_pad 0x36 k ++ msg)).

End SHA256.

(* ================================================================== *)
(** ** Hexadecimal text: [digest('hex')] and [Buffer.from(_, 'hex')] *)

Definition hex_digit (n : Z) : ascii :=
  ascii_of_N (Z.to_N (if n <? 10 then 48 + n else 87 + n)).

(** [buf.toString('hex')]: two lower-case digits for every byte. *)
Fixpoint to_hex (b : Buffer) : string :=
  match b with
  | [] => EmptyString
  | x :: rest =>
      String (hex_digit (Z_of_byte x / 16))
        (String (hex_digit (Z_of_byte x mod 16)) (to_hex rest))
  end.

(** The value of a hexadecimal digit of either case; [None] for any other
    character. *)
Definition unhex (c : ascii) : option Z :=
  let n := Z.of_N (N_of_ascii c) in
  if (48 <=? n) && (n <=? 57) then Some (n - 48)
  else if (97 <=? n) && (n <=? 102) then Some (n - 87)
  else if (65 <=? n) && (n <=? 70) then Some (n - 55)
  else None.

(** [Buffer.from(s, 'hex')] on a string: the pairs of digits are decoded
    from the left, and decoding stops at the first pair that is not two
    hexadecimal digits (a trailing single character is dropped as well). *)
Fixpoint from_hex (s : string) : Buffer :=
  match s with
  | String c1 (String c2 rest) =>
      match unhex c1, unhex c2 with
      | Some a, Some b => byte_of_Z (16 * a + b) :: from_hex rest
      | _, _ => []
      end
  | _ => []
  end.

(* ================================================================== *)
(** ** The runtime: errors, the response object, external calls *)

(** A thrown [Error] object: its constructor name and its [message]. *)
Record JsError := mkError { name : string; message : string }.

Definition TypeError (m : string) : JsError := mkError "TypeError" m.
Definition RangeError (m : string) : JsError := mkError "RangeError" m.
Definition Error (m : string) : JsError := mkError "Error" m.
Definition SyntaxError (m : string) : JsError := mkError "SyntaxError" m.

(** What a template literal shows for a value that is a string or
    [undefined]. *)
Definition show (v : option string) : string :=
  match v with
  | Some s => s
  | None => "undefined"
  end.

(** The inbound request: [req.method] and [req.query].  The query object
    is the list of its own properties in insertion order, every name
    bound once to a string. *)
Record Request := mkRequest
  { method : string;
    query : list (string * string) }.

Fixpoint lookup (key : string) (q : list (string * string)) : option string :=
  match q with
  | [] => None
  | (k, v) :: rest => if (k =? key)%string then Some v else lookup key rest
  end.

Definition Object_keys (q : list (string * string)) : list string :=
  map fst q.

(** [process.env]: the two variables the handler reads. *)
Record Env := mkEnv
  { SHOPIFY_CLIENT_ID : option string;
    SHOPIFY_CLIENT_SECRET : option string }.

(** The second argument of [fetch]. *)
Record RequestInit := mkInit
  { init_method : string;
    init_headers : list (string * string);
    init_body : string }.

(** What [await tokenResponse.json()] gives: a rejection (the body is not
    JSON), the value [null], or a value whose properties [access_token]
    and [scope] are read ([None] for a property that is missing, else the
    text a template literal shows for it). *)
Inductive JsonBody :=
| BodyInvalid (e : JsError)
| BodyNull
| BodyValue (access_token scope : option string).

(** The [Response] of [fetch]: [ok] is true for the statuses 200 to 299. *)
Record FetchResponse := mkFetchResponse
  { status : Z;
    statusText : string;
    json_body : JsonBody }.

Definition ok (r : FetchResponse) : bool :=
  (200 <=? status r) && (status r <=? 299).

(** The promise returned by [fetch] is rejected (network fault, URL that
    does not parse) or resolved with a response. *)
Inductive FetchOutcome :=
| Rejected (e : JsError)
| Resolved (r : FetchResponse).

(** The remote side: what a call of [fetch] meets. *)
Definition Upstream := string -> RequestInit -> FetchOutcome.

(** The calls that leave the handler, in the order they are made. *)
Inductive Event :=
| CreateHmac (key : option string) (msg : string)
| Fetch (url : string) (init : RequestInit)
| ConsoleLog (line : string)
| ConsoleError (label : string) (e : JsError).

(** The response object [res]. *)
Record Response := mkResponse
  { statusCode : Z;
    headers : list (string * string);
    body : option string }.

Definition fresh_response : Response := mkResponse 200 [] None.

Record State := mkState
  { res : Response;
    trace : list Event }.

(** *** Computations: state and exceptions.
    A statement either completes normally or throws; the state reached so
    far is kept in both cases. *)
Inductive Completion (A : Type) :=
| Normal (a : A)
| Throw (e : JsError).

Arguments Normal {A} a.
Arguments Throw {A} e.

Definition Js (A : Type) : Type := State -> Completion A * State.

Definition ret {A} (a : A) : Js A := fun st => (Normal a, st).

Definition bind {A B} (c : Js A) (k : A -> Js B) : Js B :=
  fun st =>
    match c st with
    | (Normal a, st') => k a st'
    | (Throw e, st') => (Throw e, st')
    end.

Definition throw {A} (e : JsError) : Js A := fun st => (Throw e, st).

Definition try_catch {A} (c : Js A) (h : JsError -> Js A) : Js A :=
  fun st =>
    match c st with
    | (Normal a, st') => (Normal a, st')
    | (Throw e, st') => h e st'
    end.

Declare Scope js_scope.
Delimit Scope js_scope with js.
Bind Scope js_scope with Js.

Notation "x <- c ;; k" := (bind c (fun x => k))
  (at level 61, c at next level, right associativity) : js_scope.
Notation "c ;; k" := (bind c (fun _ => k))
  (at level 61, right associativity) : js_scope.

Local Open Scope js_scope.

Definition emit (e : Event) : Js unit :=
  fun st => (Normal tt, mkState (res st) (trace st ++ [e])%list).

Definition update_res (f : Response -> Response) : Js unit :=
  fun st => (Normal tt, mkState (f (res st)) (trace st)).

(** *** The response helpers *)

Fixpoint set_header (k v : string) (hs : list (string * string))
  : list (string * string) :=
  match hs with
  | [] => [(k, v)]
  | (k', v') :: rest =>
      if (k' =? k)%string then (k, v) :: rest else (k', v') :: set_header k v rest
  end.

Definition res_status (c : Z) : Js unit :=
  update_res (fun r => mkResponse c (headers r) (body r)).

Definition res_setHeader (k v : string) : Js unit :=
  update_res (fun r => mkResponse (statusCode r) (set_header k v (headers r)) (body r)).

Definition res_send (b : string) : Js unit :=
  update_res (fun r => mkResponse (statusCode r) (headers r) (Some b)).

(** *** [JSON.stringify] on strings and on objects with string
    properties *)

Definition hex4 (n : Z) : string :=
  String (hex_digit (n / 4096 mod 16)) (String (hex_digit (n / 256 mod 16))
    (String (hex_digit (n / 16 mod 16)) (String (hex_digit (n mod 16))
       EmptyString))).

Definition json_escape_char (c : ascii) : string :=
  let n := Z.of_N (N_of_ascii c) in
  if n =? 34 then "\" ++ dq
  else if n =? 92 then "\\"
  else if n =? 8 then "\b"
  else if n =? 12 then "\f"
  else if n =? 10 then "\n"
  else if n =? 13 then "\r"
  else if n =? 9 then "\t"
  else if n <? 32 then "\u" ++ hex4 n
  else String c EmptyString.

Fixpoint json_escape (s : string) : string :=
  match s with
  | EmptyString => EmptyString
  | String c rest => json_escape_char c ++ json_escape rest
  end.

Definition JSON_stringify_string (s : string) : string :=
  quoted (json_escape s).

(** Properties whose value is [undefined] are left out. *)
Fixpoint json_members (o : list (string * option string)) : list string :=
  match o with
  | [] => []
  | (k, Some v) :: rest =>
      (JSON_stringify_string k ++ ":" ++ JSON_stringify_string v)
        :: json_members rest
  | (_, None) :: rest => json_members rest
  end.

Definition JSON_stringify (o : list (string * option string)) : string :=
  "{" ++ String.concat "," (json_members o) ++ "}".

(** [res.json(o)]: the JSON text with its content type. *)
Definition res_json (o : list (string * option string)) : Js unit :=
  res_setHeader "Content-Type" "application/json; charset=utf-8" ;;
  res_send (JSON_stringify o).

(** *** [console] *)

Definition console_log (line : string) : Js unit := emit (ConsoleLog line).

Definition console_error (label : string) (e : JsError) : Js unit :=
  emit (ConsoleError label e).

(** *** [crypto] and [Buffer] *)

Definition ERR_INVALID_KEY : string :=
  "The " ++ quoted "key" ++ " argument must be of type string or an instance of ArrayBuffer, Buffer, TypedArray, DataView, KeyObject, or CryptoKey. Received undefined".

Definition ERR_INVALID_FIRST_ARG : string :=
  "The first argument must be of type string or an instance of Buffer, ArrayBuffer, or Array or an Array-like Object. Received undefined".

Definition ERR_TIMING_SAFE_EQUAL_LENGTH : string :=
  "Input buffers must have the same byte length".

(** [crypto.createHmac('sha256', key).update(msg).digest('hex')] *)
Definition createHmac_sha256_hex (key : option string) (msg : string)
  : Js string :=
  emit (CreateHmac key msg) ;;
  match key with
  | None => throw (TypeError ERR_INVALID_KEY)
  | Some k => ret (to_hex (SHA256.hmac (utf8 k) (utf8 msg)))
  end.

(** [Buffer.from(v, 'hex')] *)
Definition Buffer_from_hex (v : option string) : Js Buffer :=
  match v with
  | None => throw (TypeError ERR_INVALID_FIRST_ARG)
  | Some s => ret (from_hex s)
  end.

(** The comparison inside [timingSafeEqual]: the differences of all the
    byte pairs are accumulated, none is skipped. *)
Definition CRYPTO_memcmp (a b : Buffer) : Z :=
  fold_left (fun acc xy => Z.lor acc (Z.lxor (Z_of_byte (fst xy)) (Z_of_byte (snd xy))))
    (combine a b) 0.

(** [crypto.timingSafeEqual(a, b)] throws when the byte lengths differ. *)
Definition timingSafeEqual (a b : Buffer) : Js bool :=
  if Nat.eqb (List.length a) (List.length b)
  then ret (CRYPTO_memcmp a b =? 0)
  else throw (RangeError ERR_TIMING_SAFE_EQUAL_LENGTH).

(** *** [fetch] and the body of its response *)

Definition fetch (upstream : Upstream) (url : string) (init : RequestInit)
  : Js FetchResponse :=
  emit (Fetch url init) ;;
  match upstream url init with
  | Rejected e => throw e
  | Resolved r => ret r
  end.

Definition Response_json (r : FetchResponse) : Js JsonBody :=
  match json_body r with
  | BodyInvalid e => throw e
  | b => ret b
  end.

(** [const { access_token, scope } = tokenData] *)
Definition destructure_token (d : JsonBody)
  : Js (option string * option string) :=
  match d with
  | BodyValue a s => ret (a, s)
  | _ =>
      throw (TypeError
        "Cannot destructure property 'access_token' of 'tokenData' as it is null.")
  end.

(* ================================================================== *)
(** ** The handler *)

(** [Array.prototype.sort()] without a comparison function: ascending
    order of the strings.  Equal names are identical, so that the result
    does not depend on the sorting algorithm; insertion sort is used. *)
Fixpoint sort_insert (x : string) (l : list string) : list string :=
  match l with
  | [] => [x]
  | y :: rest => if (x <=? y)%string then x :: l else y :: sort_insert x rest
  end.

Fixpoint js_sort (l : list string) : list string :=
  match l with
  | [] => []
  | x :: rest => sort_insert x (js_sort rest)
  end.

(** The canonical message (lines 19 to 23). *)
Definition canonical_message (q : list (string * string)) : string :=
  String.concat "&"
    (map (fun key => key ++ "=" ++ show (lookup key q))
       (js_sort
          (filter (fun key => negb (key =? "signature")%string && negb (key =? "hmac")%string)
             (Object_keys q)))).

Definition successHTML (shop scope : string) : string :=
  "
            <!DOCTYPE html>
            <html>
            <head>
                <title>Installation Complete - " ++ shop ++ "</title>
                <meta charset=" ++ dq ++ "UTF-8" ++ dq ++ ">
                <style>
                    body { 
                        font-family: -apple-system, BlinkMacSystemFont, 'Segoe UI', Roboto, sans-serif;
                        padding: 40px 20px; 
                        max-width: 600px; 
                        margin: 0 auto;
                        background: #f8f9fa;
                    }
                    .container {
                        background: white;
                        padding: 40px;
                        border-radius: 12px;
                        box-shadow: 0 4px 12px rgba(0,0,0,0.1);
                    }
                    .success { 
                        color: #28a745; 
                        font-size: 28px; 
                        text-align: center;
                        margin-bottom: 30px;
                    }
                    .info { 
                        background: #e8f5e8; 
                        padding: 20px; 
                        border-radius: 8px; 
                        margin: 20px 0;
                        border-left: 4px solid #28a745;
                    }
                    .shop-name {
                        font-weight: bold;
                        color: #6f42c1;
                    }
                    .next-steps {
                        background: #fff3cd;
                        border-left: 4px solid #ffc107;
                    }
                    .code {
                        font-family: 'Monaco', 'Menlo', monospace;
                        background: #f1f3f4;
                        padding: 2px 6px;
                        border-radius: 3px;
                        font-size: 14px;
                    }
                </style>
            </head>
            <body>
                <div class=" ++ dq ++ "container" ++ dq ++ ">
                    <div class=" ++ dq ++ "success" ++ dq ++ ">✅ Installation Successful!</div>
                    
                    <div class=" ++ dq ++ "info" ++ dq ++ ">
                        <h3>✓ App Installed Successfully</h3>
                        <p><strong>Store:</strong> <span class=" ++ dq ++ "shop-name" ++ dq ++ ">" ++ shop ++ "</span></p>
                        <p><strong>Permissions Granted:</strong> <span class=" ++ dq ++ "code" ++ dq ++ ">" ++ scope ++ "</span></p>
                        <p><strong>Status:</strong> Ready for API access</p>
                    </div>
                    
                    <div class=" ++ dq ++ "info next-steps" ++ dq ++ ">
                        <h3>🚀 Next Steps for Power BI Integration:</h3>
                        <ol>
                            <li>Your app now has <strong>read_all_orders</strong> access</li>
                            <li>Check Shopify Admin → Settings → Apps to confirm installation</li>
                            <li>Use your Partner app credentials in Power Query</li>
                            <li>Access historical orders beyond 60 days via Admin API</li>
                        </ol>
                    </div>
                    
                    <p style=" ++ dq ++ "text-align: center; margin-top: 30px; color: #666;" ++ dq ++ ">
                        You can safely close this window.
                    </p>
                </div>
                
                <script>
                    // Auto-close after showing success for a few seconds
                    setTimeout(() => {
                        if (window.opener) {
                            window.close();
                        }
                    }, 5000);
                </script>
            </body>
            </html>
        ".

Definition errorHTML (message : string) : string :=
  "
            <!DOCTYPE html>
            <html>
            <head>
                <title>Installation Failed</title>
                <style>
                    body { font-family: Arial, sans-serif; padding: 40px; text-align: center; }
                    .error { color: #dc3545; font-size: 24px; margin-bottom: 20px; }
                </style>
            </head>
            <body>
                <div class=" ++ dq ++ "error" ++ dq ++ ">❌ Installation Failed</div>
                <p>Error: " ++ message ++ "</p>
                <p>Please try installing the app again from your Partner Dashboard.</p>
            </body>
            </html>
        ".

Definition token_url (shop : option string) : string :=
  "https://" ++ show shop ++ "/admin/oauth/access_token".

Definition token_init (CLIENT_ID CLIENT_SECRET code : option string)
  : RequestInit :=
  mkInit "POST" [("Content-Type", "application/json")]
    (JSON_stringify
       [("client_id", CLIENT_ID);
        ("client_secret", CLIENT_SECRET);
        ("code", code)]).

Definition handler (env : Env) (upstream : Upstream) (req : Request)
  : Js unit :=
  if negb (method req =? "GET")%string then
    res_status 405 ;;
    res_json [("error", Some "Method not allowed")]
  else
    try_catch
      (let code := lookup "code" (query req) in
       let shop := lookup "shop" (query req) in
       let hmac := lookup "hmac" (query req) in
       let CLIENT_ID := SHOPIFY_CLIENT_ID env in
       let CLIENT_SECRET := SHOPIFY_CLIENT_SECRET env in
       let message := canonical_message (query req) in
       calculatedHmac <- createHmac_sha256_hex CLIENT_SECRET message ;;
       supplied <- Buffer_from_hex hmac ;;
       calculated <- Buffer_from_hex (Some calculatedHmac) ;;
       isValid <- timingSafeEqual supplied calculated ;;
       if negb isValid then
         res_status 401 ;;
         res_json [("error", Some "Invalid HMAC")]
       else
         tokenResponse <-
           fetch upstream (token_url shop)
             (token_init CLIENT_ID CLIENT_SECRET code) ;;
         if negb (ok tokenResponse) then
           throw (Error ("Token exchange failed: " ++ statusText tokenResponse))
         else
           tokenData <- Response_json tokenResponse ;;
           fields <- destructure_token tokenData ;;
           let scope := snd fields in
           console_log ("App installed for " ++ show shop
                          ++ " with scopes: " ++ show scope) ;;
           res_setHeader "Content-Type" "text/html" ;;
           res_status 200 ;;
           res_send (successHTML (show shop) (show scope)))
      (fun error =>
         console_error "OAuth callback error:" error ;;
         res_setHeader "Content-Type" "text/html" ;;
         res_status 500 ;;
         res_send (errorHTML (message error))).

(** One invocation: the platform hands the handler a fresh response
    object; the trace of the process goes on from [history]. *)
Definition invoke (env : Env) (upstream : Upstream) (req : Request)
  (history : list Event) : State :=
  snd (handler env upstream req (mkState fresh_response history)).

Definition run (env : Env) (upstream : Upstream) (req : Request) : State :=
  invoke env upstream req [].

(** The requests of a process served one after the other. *)
Fixpoint serve (env : Env) (upstream : Upstream) (reqs : list Request)
  (history : list Event) : list Response * list Event :=
  match reqs with
  | [] => ([], history)
  | req :: rest =>
      let st := invoke env upstream req history in
      let '(rs, h) := serve env upstream rest (trace st) in
      (res st :: rs, h)
  end.

(** The outbound calls and the keyed-hash computations of a trace. *)
Definition is_fetch (e : Event) : bool :=
  match e with Fetch _ _ => true | _ => false end.

Definition is_hmac (e : Event) : bool :=
  match e with CreateHmac _ _ => true | _ => false end.

Definition is_log (e : Event) : bool :=
  match e with ConsoleLog _ => true | _ => false end.

Definition outbound_calls (t : list Event) : list Event := filter is_fetch t.

(* ================================================================== *)
(** ** The paths of the handler

    [outcome] lists, path by path, the response and the external calls of
    one invocation; [invoke_outcome] proves that the handler does exactly
    that.  The theorems below go through it. *)

Definition json_type : list (string * string) :=
  [("Content-Type", "application/json; charset=utf-8")].

Definition html_type : list (string * string) :=
  [("Content-Type", "text/html")].

Definition json_response (c : Z) (msg : string) : Response :=
  mkResponse c json_type (Some (JSON_stringify [("error", Some msg)])).

Definition error_page (e : JsError) : Response :=
  mkResponse 500 html_type (Some (errorHTML (message e))).

Definition success_page (shop scope : option string) : Response :=
  mkResponse 200 html_type (Some (successHTML (show shop) (show scope))).

Definition caught (e : JsError) (before : list Event)
  : Response * list Event :=
  (error_page e, (before ++ [ConsoleError "OAuth callback error:" e])%list).

Definition digest (key : string) (req : Request) : Buffer :=
  SHA256.hmac (utf8 key) (utf8 (canonical_message (query req))).

Definition exchange_failed (r : FetchResponse) : JsError :=
  Error ("Token exchange failed: " ++ statusText r).

Definition null_token : JsError :=
  TypeError
    "Cannot destructure property 'access_token' of 'tokenData' as it is null.".

Definition outcome (env : Env) (upstream : Upstream) (req : Request)
  : Response * list Event :=
  if negb (method req =? "GET")%string then
    (json_response 405 "Method not allowed", [])
  else
    let shop := lookup "shop" (query req) in
    let hashed :=
      CreateHmac (SHOPIFY_CLIENT_SECRET env) (canonical_message (query req)) in
    match SHOPIFY_CLIENT_SECRET env with
    | None => caught (TypeError ERR_INVALID_KEY) [hashed]
    | Some key =>
        match lookup "hmac" (query req) with
        | None => caught (TypeError ERR_INVALID_FIRST_ARG) [hashed]
        | Some h =>
            if negb (Nat.eqb (List.length (from_hex h)) 32) then
              caught (RangeError ERR_TIMING_SAFE_EQUAL_LENGTH) [hashed]
            else if negb (CRYPTO_memcmp (from_hex h) (digest key req) =? 0) then
              (json_response 401 "Invalid HMAC", [hashed])
            else
              let url := token_url shop in
              let init :=
                token_init (SHOPIFY_CLIENT_ID env) (Some key)
                  (lookup "code" (query req)) in
              let called := [hashed; Fetch url init] in
              match upstream url init with
              | Rejected e => caught e called
              | Resolved r =>
                  if negb (ok r) then caught (exchange_failed r) called
                  else
                    match json_body r with
                    | BodyInvalid e => caught e called
                    | BodyNull => caught null_token called
                    | BodyValue _ scope =>
                        (success_page shop scope,
                         (called ++
                          [ConsoleLog ("App installed for " ++ show shop
                                       ++ " with scopes: " ++ show scope)])%list)
                    end
              end
        end
    end.

(* ================================================================== *)
(** ** The canonical message as the specification words it *)

(** Lexicographic order of two names, byte by byte. *)
Inductive lex_le : string -> string -> Prop :=
| lex_empty (s : string) : lex_le EmptyString s
| lex_less (c1 c2 : ascii) (s1 s2 : string) :
    (N_of_ascii c1 < N_of_ascii c2)%N ->
    lex_le (String c1 s1) (String c2 s2)
| lex_same (c : ascii) (s1 s2 : string) :
    lex_le s1 s2 -> lex_le (String c s1) (String c s2).

(** The parameters that carry the signature. *)
Definition carries_signature (n : string) : bool :=
  ((n =? "hmac") || (n =? "signature"))%string.


(* ================================================================== *)
(** ** Reading a response and a trace *)

Definition content_type (r : Response) : option string :=
  lookup "Content-Type" (headers r).

Definition body_text (r : Response) : string :=
  match body r with
  | Some b => b
  | None => EmptyString
  end.

(** A rendered HTML document: sent as [text/html], with a document type
    declaration and an [html] element. *)
Definition is_html_document (r : Response) : bool :=
  match content_type r with
  | Some t => (t =? "text/html")%string
  | None => false
  end
  && includes "<!DOCTYPE html>" (body_text r)
  && includes "<html>" (body_text r).

(** The check of the handler has succeeded: a client secret is configured,
    an [hmac] parameter is supplied, and the bytes it decodes to are the
    bytes of the computed digest. *)
Definition hmac_verified (env : Env) (req : Request) : Prop :=
  exists key h,
    SHOPIFY_CLIENT_SECRET env = Some key /\
    lookup "hmac" (query req) = Some h /\
    from_hex h = digest key req.

(** The call of [fetch] the handler makes for a request. *)
Definition exchange_call (env : Env) (upstream : Upstream) (req : Request)
  : FetchOutcome :=
  upstream (token_url (lookup "shop" (query req)))
    (token_init (SHOPIFY_CLIENT_ID env) (SHOPIFY_CLIENT_SECRET env)
       (lookup "code" (query req))).

(* ================================================================== *)
(** ** Concrete requests used as examples *)

Module Examples.

Definition secret : string := "shpss_0123456789abcdef".

Definition env : Env := mkEnv (Some "client-1") (Some secret).

(** The parameter set of the specification's example. *)
Definition params : list (string * string) :=
  [("shop", "a.myshopify.com"); ("code", "xyz"); ("state", "abc")].

(** HMAC-SHA256 of [code=xyz&shop=a.myshopify.com&state=abc] under
    [secret]. *)
Definition signature : string :=
  "d38256ea8ac13bce005759feb65b5ee0c9eaf8557be3382134d1fce2834fcae7".

Definition signed : Request :=
  mkRequest "GET" (params ++ [("hmac", signature)])%list.

(** The same callback with a signature of another length, with a wrong
    signature of the right length, without a signature, and sent with
    another method. *)
Definition short_hmac : Request :=
  mkRequest "GET" (params ++ [("hmac", "abcd")])%list.

Definition wrong_hmac : Request :=
  mkRequest "GET"
    (params ++
     [("hmac",
       "0000000000000000000000000000000000000000000000000000000000000000")])%list.

Definition no_hmac : Request := mkRequest "GET" params.

Definition posted : Request :=
  mkRequest "POST" (params ++ [("hmac", signature)])%list.

(** Remote sides: one that grants a token, one that refuses, one whose
    granted scope is markup, one that sends the client secret back. *)
Definition grants (scope : string) : Upstream :=
  fun _ _ =>
    Resolved (mkFetchResponse 200 "OK" (BodyValue (Some "tok") (Some scope))).

Definition refuses : Upstream :=
  fun _ _ => Resolved (mkFetchResponse 403 "Forbidden" BodyNull).

Definition markup : string := "<script>alert(1)</script>".

End Examples.

(* ================================================================== *)
(** ** Further notions used to state the behaviour of the handler *)

(** The letters a to z put in upper case. *)
Definition upper_char (c : ascii) : ascii :=
  let n := N_of_ascii c in
  if ((97 <=? n) && (n <=? 122))%N then ascii_of_N (n - 32) else c.

Fixpoint to_upper (s : string) : string :=
  match s with
  | EmptyString => EmptyString
  | String c rest => String (upper_char c) (to_upper rest)
  end.

(** A text of lower-case hexadecimal digits, as [digest('hex')] writes
    them. *)
Definition is_lower_hex_char (c : ascii) : bool :=
  let n := Z.of_N (N_of_ascii c) in
  ((48 <=? n) && (n <=? 57)) || ((97 <=? n) && (n <=? 102)).

Fixpoint is_lower_hex (s : string) : bool :=
  match s with
  | EmptyString => true
  | String c rest => is_lower_hex_char c && is_lower_hex rest
  end.

(** The query object with the value of one parameter changed by [f]. *)
Definition map_value (key : string) (f : string -> string)
  (q : list (string * string)) : list (string * string) :=
  map (fun kv => if (fst kv =? key)%string then (fst kv, f (snd kv)) else kv) q.

(** The reply of the endpoint with another [access_token]. *)
Definition with_token (token : option string) (o : FetchOutcome)
  : FetchOutcome :=
  match o with
  | Resolved r =>
      match json_body r with
      | BodyValue _ scope =>
          Resolved (mkFetchResponse (status r) (statusText r)
                      (BodyValue token scope))
      | _ => o
      end
  | Rejected _ => o
  end.

Definition is_console_error (e : Event) : bool :=
  match e with ConsoleError _ _ => true | _ => false end.

(** The events of an invocation that has computed the digest, and of one
    that has called the endpoint as well. *)
Definition hashed (env : Env) (req : Request) : Event :=
  CreateHmac (SHOPIFY_CLIENT_SECRET env) (canonical_message (query req)).

Definition called (env : Env) (req : Request) : list Event :=
  [hashed env req;
   Fetch (token_url (lookup "shop" (query req)))
     (token_init (SHOPIFY_CLIENT_ID env) (SHOPIFY_CLIENT_SECRET env)
        (lookup "code" (query req)))].

(** The ten paths through the handler, each with the conditions under
    which it is taken and with the response and the calls it ends in. *)
Inductive path (env : Env) (upstream : Upstream) (req : Request)
  : Response * list Event -> Prop :=
| path_method :
    method req <> "GET" ->
    path env upstream req (json_response 405 "Method not allowed", [])
| path_no_secret :
    method req = "GET" ->
    SHOPIFY_CLIENT_SECRET env = None ->
    path env upstream req
      (caught (TypeError ERR_INVALID_KEY) [hashed env req])
| path_no_hmac (key : string) :
    method req = "GET" ->
    SHOPIFY_CLIENT_SECRET env = Some key ->
    lookup "hmac" (query req) = None ->
    path env upstream req
      (caught (TypeError ERR_INVALID_FIRST_ARG) [hashed env req])
| path_length (key h : string) :
    method req = "GET" ->
    SHOPIFY_CLIENT_SECRET env = Some key ->
    lookup "hmac" (query req) = Some h ->
    List.length (from_hex h) <> 32%nat ->
    path env upstream req
      (caught (RangeError ERR_TIMING_SAFE_EQUAL_LENGTH) [hashed env req])
| path_mismatch (key h : string) :
    method req = "GET" ->
    SHOPIFY_CLIENT_SECRET env = Some key ->
    lookup "hmac" (query req) = Some h ->
    List.length (from_hex h) = 32%nat ->
    from_hex h <> digest key req ->
    path env upstream req (json_response 401 "Invalid HMAC", [hashed env req])
| path_rejected (key h : string) (e : JsError) :
    method req = "GET" ->
    SHOPIFY_CLIENT_SECRET env = Some key ->
    lookup "hmac" (query req) = Some h ->
    from_hex h = digest key req ->
    exchange_call env upstream req = Rejected e ->
    path env upstream req (caught e (called env req))
| path_refused (key h : string) (r : FetchResponse) :
    method req = "GET" ->
    SHOPIFY_CLIENT_SECRET env = Some key ->
    lookup "hmac" (query req) = Some h ->
    from_hex h = digest key req ->
    exchange_call env upstream req = Resolved r ->
    ok r = false ->
    path env upstream req (caught (exchange_failed r) (called env req))
| path_not_json (key h : string) (r : FetchResponse) (e : JsError) :
    method req = "GET" ->
    SHOPIFY_CLIENT_SECRET env = Some key ->
    lookup "hmac" (query req) = Some h ->
    from_hex h = digest key req ->
    exchange_call env upstream req = Resolved r ->
    ok r = true ->
    json_body r = BodyInvalid e ->
    path env upstream req (caught e (called env req))
| path_null (key h : string) (r : FetchResponse) :
    method req = "GET" ->
    SHOPIFY_CLIENT_SECRET env = Some key ->
    lookup "hmac" (query req) = Some h ->
    from_hex h = digest key req ->
    exchange_call env upstream req = Resolved r ->
    ok r = true ->
    json_body r = BodyNull ->
    path env upstream req (caught null_token (called env req))
| path_success (key h : string) (r : FetchResponse)
    (token scope : option string) :
    method req = "GET" ->
    SHOPIFY_CLIENT_SECRET env = Some key ->
    lookup "hmac" (query req) = Some h ->
    from_hex h = digest key req ->
    exchange_call env upstream req = Resolved r ->
    ok r = true ->
    json_body r = BodyValue token scope ->
    path env upstream req
      (success_page (lookup "shop" (query req)) scope,
       (called env req ++
        [ConsoleLog ("App installed for " ++ show (lookup "shop" (query req))
                     ++ " with scopes: " ++ show scope)])%list).

Module MoreExamples.

(** A callback that carries nothing but the signature of the empty
    message. *)
Definition bare : Request :=
  mkRequest "GET"
    [("hmac",
      "3cd4bf487c7965a039dde3a6ba952104a56c3a4a7136882b73b25099e8fb45b6")].

(** The parameters of the example in another order, with the signature
    first. *)
Definition reordered : list (string * string) :=
  [("hmac", Examples.signature); ("state", "abc"); ("code", "xyz");
   ("shop", "a.myshopify.com")].

(** A signature of the right shape that is not the digest. *)
Definition forged : string :=
  "d38256ea8ac13bce005759feb65b5ee0c9eaf8557be3382134d1fce2834fcae8".

End MoreExamples.

(* ================================================================== *)
(** ** Facts about the byte and text helpers *)

Lemma Z_of_byte_inj (x y : byte) : Z_of_byte x = Z_of_byte y -> x = y.
Proof.
  unfold Z_of_byte. intros H. apply N2Z.inj in H.
  assert (E : Byte.of_N (Byte.to_N x) = Byte.of_N (Byte.to_N y))
    by (rewrite H; reflexivity).
  rewrite !Byte.of_to_N in E. congruence.
Qed.

Lemma sha256_length (m : Buffer) : List.length (SHA256.sha256 m) = 32%nat.
Proof.
  unfold SHA256.sha256. rewrite length_map. reflexivity.
Qed.

Lemma hmac_length (key msg : Buffer) :
  List.length (SHA256.hmac key msg) = 32%nat.
Proof. unfold SHA256.hmac. apply sha256_length. Qed.

(** Known answers: the digest of [abc] (FIPS 180-4) and the second case
    of RFC 4231. *)
Example sha256_abc :
  to_hex (SHA256.sha256 (utf8 "abc"))
  = "ba7816bf8f01cfea414140de5dae2223b00361a396177a9cb410ff61f20015ad".
Proof. vm_compute. reflexivity. Qed.

Example hmac_rfc4231_case2 :
  to_hex (SHA256.hmac (utf8 "Jefe") (utf8 "what do ya want for nothing?"))
  = "5bdcc146bf60754e6a042426089575c75a003f089d2739839dec58b964ec3843".
Proof. vm_compute. reflexivity. Qed.

Example signature_of_example :
  to_hex (digest Examples.secret Examples.signed) = Examples.signature.
Proof. vm_compute. reflexivity. Qed.

(** Decoding the hexadecimal text of a buffer gives the buffer back. *)
Lemma from_hex_to_hex_cons (x : byte) (rest : Buffer) :
  from_hex (to_hex (x :: rest)) = x :: from_hex (to_hex rest).
Proof. destruct x; reflexivity. Qed.

Lemma from_hex_to_hex (b : Buffer) : from_hex (to_hex b) = b.
Proof.
  induction b as [|x rest IH]; [reflexivity|].
  rewrite from_hex_to_hex_cons, IH. reflexivity.
Qed.

(** The decoder takes digits of either case and stops at the first pair
    that is not two digits; a single last character is dropped. *)
Example from_hex_mixed_case : from_hex "0aFF" = from_hex "0Aff".
Proof. reflexivity. Qed.

Example from_hex_stops : to_hex (from_hex "0aFFzz12") = "0aff".
Proof. reflexivity. Qed.

Example from_hex_odd : to_hex (from_hex "abc") = "ab".
Proof. reflexivity. Qed.

(** The accumulated comparison is zero exactly on equal buffers. *)
Lemma memcmp_fold_zero (l : list (byte * byte)) (acc : Z) :
  fold_left (fun a xy => Z.lor a (Z.lxor (Z_of_byte (fst xy)) (Z_of_byte (snd xy))))
    l acc = 0
  <-> acc = 0 /\ Forall (fun xy => fst xy = snd xy) l.
Proof.
  revert acc. induction l as [|[x y] l IH]; intros acc; simpl.
  - split; [intros ->; split; constructor | intros [H _]; exact H].
  - rewrite IH, Z.lor_eq_0_iff. split.
    + intros [[Ha Hx] Hl]. split; [exact Ha|].
      constructor; [|exact Hl]. simpl.
      apply Z_of_byte_inj, Z.lxor_eq, Hx.
    + intros [Ha Hl]. inversion Hl as [|? ? Hx Hl']; subst. simpl in Hx.
      subst y. rewrite Z.lxor_nilpotent. auto.
Qed.

Lemma Forall_combine_eq {A} (a b : list A) :
  List.length a = List.length b ->
  Forall (fun xy => fst xy = snd xy) (combine a b) -> a = b.
Proof.
  revert b. induction a as [|x a IH]; intros [|y b] Hlen HF;
    simpl in *; try discriminate; [reflexivity|].
  inversion HF as [|? ? Hx HF']; subst. simpl in Hx. subst y.
  f_equal. apply IH; [lia | exact HF'].
Qed.

Lemma Forall_combine_refl {A} (a : list A) :
  Forall (fun xy => fst xy = snd xy) (combine a a).
Proof. induction a; simpl; constructor; auto. Qed.

Lemma CRYPTO_memcmp_spec (a b : Buffer) :
  List.length a = List.length b ->
  (CRYPTO_memcmp a b =? 0) = true <-> a = b.
Proof.
  intros Hlen. unfold CRYPTO_memcmp.
  rewrite Z.eqb_eq, memcmp_fold_zero. split.
  - intros [_ HF]. apply Forall_combine_eq; assumption.
  - intros ->. split; [reflexivity | apply Forall_combine_refl].
Qed.

Lemma CRYPTO_memcmp_neq (a b : Buffer) :
  List.length a = List.length b -> a <> b ->
  (CRYPTO_memcmp a b =? 0) = false.
Proof.
  intros Hlen Hne. destruct (CRYPTO_memcmp a b =? 0) eqn:E; [|reflexivity].
  apply CRYPTO_memcmp_spec in E; [contradiction | exact Hlen].
Qed.

Lemma CRYPTO_memcmp_refl (a : Buffer) : (CRYPTO_memcmp a a =? 0) = true.
Proof. apply CRYPTO_memcmp_spec; reflexivity. Qed.

(** [includes] finds a string placed anywhere. *)
Lemma prefix_app (x rest : string) : String.prefix x (x ++ rest) = true.
Proof.
  induction x as [|c x IH]; simpl; [destruct rest; reflexivity|].
  destruct (ascii_dec c c); [exact IH | contradiction].
Qed.

Lemma includes_unfold (needle hay : string) :
  includes needle hay =
  if String.prefix needle hay then true
  else match hay with
       | EmptyString => false
       | String _ rest => includes needle rest
       end.
Proof. destruct hay; reflexivity. Qed.

Lemma includes_app (x before after : string) :
  includes x (before ++ x ++ after) = true.
Proof.
  induction before as [|c before IH].
  - rewrite includes_unfold. simpl. rewrite prefix_app. reflexivity.
  - rewrite includes_unfold. simpl String.append. cbv iota. rewrite IH.
    destruct (String.prefix x _); reflexivity.
Qed.

#[local] Arguments SHA256.hmac : simpl never.
#[local] Arguments successHTML : simpl never.
#[local] Arguments errorHTML : simpl never.
#[local] Arguments canonical_message : simpl never.
#[local] Arguments JSON_stringify : simpl never.
#[local] Arguments token_url : simpl never.
#[local] Arguments token_init : simpl never.
#[local] Arguments to_hex : simpl never.
#[local] Arguments from_hex : simpl never.
#[local] Arguments CRYPTO_memcmp : simpl never.

Lemma invoke_outcome (env : Env) (upstream : Upstream) (req : Request)
  (history : list Event) :
  invoke env upstream req history =
  mkState (fst (outcome env upstream req))
          (history ++ snd (outcome env upstream req)).
Proof.
  unfold invoke, outcome, handler.
  destruct (method req =? "GET")%string; cbn [negb].
  - unfold try_catch, bind, createHmac_sha256_hex, emit, caught, digest.
    cbn [res trace fst snd].
    destruct (SHOPIFY_CLIENT_SECRET env) as [key|]; cbn;
      [|rewrite <- app_assoc; reflexivity].
    destruct (lookup "hmac" (query req)) as [h|]; cbn;
      [|rewrite <- app_assoc; reflexivity].
    unfold timingSafeEqual. rewrite from_hex_to_hex, hmac_length.
    destruct (Nat.eqb (List.length (from_hex h)) 32); cbn;
      [|rewrite <- app_assoc; reflexivity].
    destruct (CRYPTO_memcmp (from_hex h) _ =? 0); cbn; [|reflexivity].
    unfold fetch, bind, emit. cbn.
    destruct (upstream _ _) as [e|r]; cbn;
      [rewrite <- !app_assoc; reflexivity|].
    destruct (ok r); cbn; [|rewrite <- !app_assoc; reflexivity].
    unfold Response_json.
    destruct (json_body r) as [e| |a s]; cbn;
      rewrite <- !app_assoc; reflexivity.
  - cbn. rewrite app_nil_r. reflexivity.
Qed.

(* ================================================================== *)
(** ** The order of the names and the sort *)

Lemma ascii_compare_refl (c : ascii) : Ascii.compare c c = Eq.
Proof. unfold Ascii.compare. apply N.compare_refl. Qed.

Lemma leb_lex (a b : string) : (a <=? b)%string = true <-> lex_le a b.
Proof.
  unfold String.leb. revert b.
  induction a as [|c1 a IH]; intros [|c2 b]; simpl.
  - split; [constructor | reflexivity].
  - split; [constructor | reflexivity].
  - split; [discriminate | intros H; inversion H].
  - unfold Ascii.compare.
    destruct (N.compare_spec (N_of_ascii c1) (N_of_ascii c2)) as [E|L|G].
    + assert (c1 = c2) as ->
        by (rewrite <- (ascii_N_embedding c1), <- (ascii_N_embedding c2), E;
            reflexivity).
      rewrite IH. split; [apply lex_same|].
      intros H. inversion H; subst; [lia | assumption].
    + split; [intros _; apply lex_less, L | reflexivity].
    + split; [discriminate|].
      intros H. inversion H; subst; lia.
Qed.

Lemma lex_le_refl (a : string) : lex_le a a.
Proof. induction a; constructor; assumption. Qed.

Lemma lex_le_trans (a b c : string) : lex_le a b -> lex_le b c -> lex_le a c.
Proof.
  intros Hab. revert c.
  induction Hab as [s|c1 c2 s1 s2 L|c1 s1 s2 H IH]; intros c Hbc.
  - constructor.
  - inversion Hbc; subst; apply lex_less; [lia | assumption].
  - inversion Hbc; subst; [apply lex_less; assumption|].
    apply lex_same, IH. assumption.
Qed.

Lemma lex_le_antisym (a b : string) : lex_le a b -> lex_le b a -> a = b.
Proof.
  intros H1 H2. apply leb_lex in H1, H2. apply String.leb_antisym; assumption.
Qed.

Lemma lex_le_total (a b : string) : lex_le a b \/ lex_le b a.
Proof.
  destruct (String.leb_total a b) as [H|H]; apply leb_lex in H; auto.
Qed.

Lemma sort_insert_perm (x : string) (l : list string) :
  Permutation (x :: l) (sort_insert x l).
Proof.
  induction l as [|y l IH]; simpl; [reflexivity|].
  destruct (x <=? y)%string; [reflexivity|].
  rewrite perm_swap. apply perm_skip, IH.
Qed.

Lemma js_sort_perm (l : list string) : Permutation l (js_sort l).
Proof.
  induction l as [|x l IH]; simpl; [constructor|].
  rewrite <- sort_insert_perm. apply perm_skip, IH.
Qed.

Lemma sort_insert_sorted (x : string) (l : list string) :
  Sorted lex_le l -> Sorted lex_le (sort_insert x l).
Proof.
  induction l as [|y l IH]; intros Hs; simpl.
  - repeat constructor.
  - destruct (x <=? y)%string eqn:E.
    + constructor; [assumption|]. constructor. apply leb_lex, E.
    + assert (Hyx : lex_le y x).
      { destruct (lex_le_total x y) as [H|H]; [|exact H].
        apply leb_lex in H. congruence. }
      inversion Hs as [|? ? Hl Hhd]; subst.
      constructor; [apply IH, Hl|].
      destruct l as [|z l]; simpl.
      * constructor. exact Hyx.
      * inversion Hhd; subst.
        destruct (x <=? z)%string; constructor; assumption.
Qed.

Lemma js_sort_sorted (l : list string) : Sorted lex_le (js_sort l).
Proof.
  induction l as [|x l IH]; simpl; [constructor|].
  apply sort_insert_sorted, IH.
Qed.

(** A list of names has one sorted arrangement. *)
Lemma sorted_perm_unique (l1 l2 : list string) :
  Sorted lex_le l1 -> Sorted lex_le l2 -> Permutation l1 l2 -> l1 = l2.
Proof.
  intros H1 H2.
  apply Sorted_StronglySorted in H1; [|exact lex_le_trans].
  apply Sorted_StronglySorted in H2; [|exact lex_le_trans].
  revert l2 H2.
  induction H1 as [|x l1 Hs1 IH Hx]; intros l2 H2 Hp.
  - apply Permutation_nil in Hp. congruence.
  - destruct H2 as [|y l2 Hs2 Hy].
    + apply Permutation_sym, Permutation_nil in Hp. discriminate.
    + assert (x = y) as ->.
      { assert (Ix : In x (y :: l2))
          by (apply (Permutation_in _ Hp); left; reflexivity).
        assert (Iy : In y (x :: l1))
          by (apply (Permutation_in _ (Permutation_sym Hp)); left; reflexivity).
        destruct Ix as [->|Ix]; [reflexivity|].
        destruct Iy as [->|Iy]; [reflexivity|].
        rewrite Forall_forall in Hx, Hy.
        apply lex_le_antisym; auto. }
      f_equal. apply IH; [exact Hs2|].
      apply Permutation_cons_inv in Hp. exact Hp.
Qed.

(* ================================================================== *)
(** ** The handler, path by path *)

Lemma run_outcome (env : Env) (upstream : Upstream) (req : Request) :
  run env upstream req =
  mkState (fst (outcome env upstream req)) (snd (outcome env upstream req)).
Proof. unfold run. rewrite invoke_outcome. reflexivity. Qed.

Lemma outcome_not_get (env : Env) (upstream : Upstream) (req : Request) :
  method req <> "GET" ->
  outcome env upstream req = (json_response 405 "Method not allowed", []).
Proof.
  intros Hm. apply String.eqb_neq in Hm. unfold outcome. rewrite Hm.
  reflexivity.
Qed.

Lemma outcome_no_secret (env : Env) (upstream : Upstream) (req : Request) :
  method req = "GET" -> SHOPIFY_CLIENT_SECRET env = None ->
  outcome env upstream req =
  caught (TypeError ERR_INVALID_KEY)
    [CreateHmac None (canonical_message (query req))].
Proof.
  intros Hm Hk. unfold outcome. rewrite Hm, Hk. reflexivity.
Qed.

Lemma outcome_no_hmac (env : Env) (upstream : Upstream) (req : Request)
  (key : string) :
  method req = "GET" -> SHOPIFY_CLIENT_SECRET env = Some key ->
  lookup "hmac" (query req) = None ->
  outcome env upstream req =
  caught (TypeError ERR_INVALID_FIRST_ARG)
    [CreateHmac (Some key) (canonical_message (query req))].
Proof.
  intros Hm Hk Hh. unfold outcome. rewrite Hm, Hk, Hh. reflexivity.
Qed.

Lemma outcome_length (env : Env) (upstream : Upstream) (req : Request)
  (key h : string) :
  method req = "GET" -> SHOPIFY_CLIENT_SECRET env = Some key ->
  lookup "hmac" (query req) = Some h ->
  List.length (from_hex h) <> 32%nat ->
  outcome env upstream req =
  caught (RangeError ERR_TIMING_SAFE_EQUAL_LENGTH)
    [CreateHmac (Some key) (canonical_message (query req))].
Proof.
  intros Hm Hk Hh Hl. apply Nat.eqb_neq in Hl.
  unfold outcome. rewrite Hm, Hk, Hh, Hl. reflexivity.
Qed.

Lemma outcome_mismatch (env : Env) (upstream : Upstream) (req : Request)
  (key h : string) :
  method req = "GET" -> SHOPIFY_CLIENT_SECRET env = Some key ->
  lookup "hmac" (query req) = Some h ->
  List.length (from_hex h) = 32%nat ->
  from_hex h <> digest key req ->
  outcome env upstream req =
  (json_response 401 "Invalid HMAC",
   [CreateHmac (Some key) (canonical_message (query req))]).
Proof.
  intros Hm Hk Hh Hl Hne. unfold outcome.
  rewrite Hm, Hk, Hh, Hl, CRYPTO_memcmp_neq; [reflexivity | | exact Hne].
  rewrite Hl. unfold digest. rewrite hmac_length. reflexivity.
Qed.

Lemma outcome_verified (env : Env) (upstream : Upstream) (req : Request)
  (key h : string) :
  method req = "GET" -> SHOPIFY_CLIENT_SECRET env = Some key ->
  lookup "hmac" (query req) = Some h ->
  from_hex h = digest key req ->
  let shop := lookup "shop" (query req) in
  let called :=
    [CreateHmac (Some key) (canonical_message (query req));
     Fetch (token_url shop)
       (token_init (SHOPIFY_CLIENT_ID env) (Some key)
          (lookup "code" (query req)))] in
  outcome env upstream req =
  match exchange_call env upstream req with
  | Rejected e => caught e called
  | Resolved r =>
      if ok r then
        match json_body r with
        | BodyInvalid e => caught e called
        | BodyNull => caught null_token called
        | BodyValue _ scope =>
            (success_page shop scope,
             (called ++
              [ConsoleLog ("App installed for " ++ show shop
                           ++ " with scopes: " ++ show scope)])%list)
        end
      else caught (exchange_failed r) called
  end.
Proof.
  intros Hm Hk Hh Hv. unfold outcome, exchange_call.
  rewrite Hm, Hk, Hh, Hv, CRYPTO_memcmp_refl.
  unfold digest. rewrite hmac_length. cbn.
  destruct (upstream _ _) as [e|r]; [reflexivity|].
  destruct (ok r); reflexivity.
Qed.

(** Without a successful check the trace holds at most the computation of
    the digest and the error line. *)
Lemma outcome_unverified_calls (env : Env) (upstream : Upstream)
  (req : Request) :
  ~ hmac_verified env req ->
  outbound_calls (snd (outcome env upstream req)) = [].
Proof.
  intros Hnv. unfold outcome.
  destruct (method req =? "GET")%string; cbn [negb]; [|reflexivity].
  destruct (SHOPIFY_CLIENT_SECRET env) as [key|] eqn:Hk; [|reflexivity].
  destruct (lookup "hmac" (query req)) as [h|] eqn:Hh; [|reflexivity].
  destruct (Nat.eqb (List.length (from_hex h)) 32) eqn:Hl; [|reflexivity].
  cbn [negb].
  destruct (CRYPTO_memcmp (from_hex h) (digest key req) =? 0) eqn:Hc;
    [|reflexivity].
  exfalso. apply Hnv. exists key, h. split; [exact Hk|]. split; [exact Hh|].
  apply CRYPTO_memcmp_spec; [|exact Hc].
  apply Nat.eqb_eq in Hl. rewrite Hl. unfold digest.
  rewrite hmac_length. reflexivity.
Qed.

(** After a successful check of a GET request the endpoint is called,
    once, whatever it answers. *)
Lemma verified_request_calls_endpoint
  (env : Env) (upstream : Upstream) (req : Request) (key h : string) :
  method req = "GET" ->
  SHOPIFY_CLIENT_SECRET env = Some key ->
  lookup "hmac" (query req) = Some h ->
  from_hex h = digest key req ->
  outbound_calls (trace (run env upstream req)) =
  [Fetch (token_url (lookup "shop" (query req)))
     (token_init (SHOPIFY_CLIENT_ID env) (Some key)
        (lookup "code" (query req)))].
Proof.
  intros Hm Hk Hh Hv.
  rewrite run_outcome, (outcome_verified _ _ _ key h) by assumption.
  destruct (exchange_call env upstream req) as [e|r]; [reflexivity|].
  destruct (ok r); [|reflexivity].
  destruct (json_body r); reflexivity.
Qed.

(** The example of a successful installation: the endpoint grants
    [read_orders]; the answer is 200, an HTML page that names the shop and
    the scope. *)
Example installation_succeeds :
  let st := run Examples.env (Examples.grants "read_orders")
              Examples.signed in
  statusCode (res st) = 200 /\
  res st = success_page (Some "a.myshopify.com") (Some "read_orders") /\
  includes "a.myshopify.com" (body_text (res st)) = true /\
  includes "read_orders" (body_text (res st)) = true /\
  includes Examples.secret (body_text (res st)) = false /\
  filter is_log (trace st) =
  [ConsoleLog "App installed for a.myshopify.com with scopes: read_orders"].
Proof. vm_compute. repeat split. Qed.

(** The body of the POST: the JSON text of the three properties. *)
Example token_init_body :
  init_body (token_init (Some "client-1") (Some "s3") (Some "xyz"))
  = "{" ++ quoted "client_id" ++ ":" ++ quoted "client-1" ++ ","
        ++ quoted "client_secret" ++ ":" ++ quoted "s3" ++ ","
        ++ quoted "code" ++ ":" ++ quoted "xyz" ++ "}".
Proof. reflexivity. Qed.

(* ================================================================== *)
(** ** The rendered documents *)

Lemma prefix_app_l (x a b : string) :
  String.prefix x a = true -> String.prefix x (a ++ b) = true.
Proof.
  revert a. induction x as [|c x IH]; intros a H.
  - destruct (a ++ b); reflexivity.
  - destruct a as [|d a]; simpl in *; [discriminate|].
    destruct (ascii_dec c d); [apply IH, H | discriminate].
Qed.

Lemma includes_app_l (x a b : string) :
  includes x a = true -> includes x (a ++ b) = true.
Proof.
  induction a as [|d a IH]; intros H.
  - rewrite includes_unfold in H. rewrite includes_unfold.
    destruct (String.prefix x EmptyString) eqn:P; [|discriminate].
    rewrite (prefix_app_l _ _ b P). reflexivity.
  - rewrite includes_unfold in H. rewrite includes_unfold.
    destruct (String.prefix x (String d a)) eqn:P.
    + rewrite (prefix_app_l _ _ b P). reflexivity.
    + simpl String.append. cbv iota. rewrite (IH H).
      destruct (String.prefix x (String d (a ++ b))); reflexivity.
Qed.

Lemma includes_app_r (x a b : string) :
  includes x b = true -> includes x (a ++ b) = true.
Proof.
  intros H. induction a as [|d a IH]; [exact H|].
  rewrite includes_unfold. simpl String.append. cbv iota. rewrite IH.
  destruct (String.prefix x _); reflexivity.
Qed.

Lemma error_page_is_html (e : JsError) :
  is_html_document (error_page e) = true.
Proof.
  unfold is_html_document, error_page, content_type, body_text, errorHTML.
  cbn [headers body html_type lookup].
  rewrite !includes_app_l by reflexivity. reflexivity.
Qed.

Lemma success_page_is_html (shop scope : option string) :
  is_html_document (success_page shop scope) = true.
Proof.
  unfold is_html_document, success_page, content_type, body_text, successHTML.
  cbn [headers body html_type lookup].
  rewrite !includes_app_l by reflexivity. reflexivity.
Qed.

Lemma json_response_not_html (c : Z) (msg : string) :
  is_html_document (json_response c msg) = false.
Proof. reflexivity. Qed.

(** Every response of the handler is one of three kinds. *)
Lemma outcome_kinds (env : Env) (upstream : Upstream) (req : Request) :
  let r := fst (outcome env upstream req) in
  r = json_response 405 "Method not allowed" \/
  r = json_response 401 "Invalid HMAC" \/
  (exists e, r = error_page e) \/
  (exists scope, r = success_page (lookup "shop" (query req)) scope).
Proof.
  unfold outcome.
  destruct (method req =? "GET")%string; cbn [negb]; [|left; reflexivity].
  right.
  destruct (SHOPIFY_CLIENT_SECRET env) as [key|];
    [|right; left; eexists; reflexivity].
  destruct (lookup "hmac" (query req)) as [h|];
    [|right; left; eexists; reflexivity].
  destruct (Nat.eqb _ 32); cbn [negb];
    [|right; left; eexists; reflexivity].
  destruct (CRYPTO_memcmp _ _ =? 0); cbn [negb]; [|left; reflexivity].
  right. cbv zeta.
  destruct (upstream _ _) as [e|r]; [left; eexists; reflexivity|].
  destruct (ok r); cbn [negb]; [|left; eexists; reflexivity].
  destruct (json_body r) as [e| |a s];
    [left; eexists; reflexivity | left; eexists; reflexivity |].
  right. eexists. reflexivity.
Qed.

(* ================================================================== *)
(** ** The signature gate *)

(** C1, as stated, fails: the supplied [hmac] can differ from the
    computed hexadecimal digest and the POST is made all the same.  The
    handler compares the bytes that [Buffer.from(hmac, 'hex')] decodes,
    and the decoder stops at the first pair that is not two digits and
    takes digits of either case.  For the callback of the examples, the
    digest followed by [!tail] (69 characters against 64) and the digest
    in upper case are both other than the computed digest, and for both
    the endpoint is called and the answer is 200. *)
Lemma C1_counterexample :
  let calculatedHmac :=
    to_hex (digest Examples.secret
              (mkRequest "GET" Examples.params)) in
  let tailed := (calculatedHmac ++ "!tail")%string in
  let shouted := to_upper calculatedHmac in
  let run_with (supplied : string) :=
    run Examples.env (Examples.grants "read_orders")
      (mkRequest "GET" (Examples.params ++ [("hmac", supplied)])%list) in
  (tailed <> calculatedHmac /\
   String.length tailed <> String.length calculatedHmac /\
   List.length (outbound_calls (trace (run_with tailed))) = 1%nat /\
   statusCode (res (run_with tailed)) = 200) /\
  (shouted <> calculatedHmac /\
   List.length (outbound_calls (trace (run_with shouted))) = 1%nat /\
   statusCode (res (run_with shouted)) = 200).
Proof. vm_compute. repeat split; discriminate. Qed.

(** C1, amended.  The token-exchange POST is made only after the HMAC
    check has succeeded, and the check compares bytes: for every request,
    when no secret is configured, no [hmac] is supplied, or the bytes
    that the supplied [hmac] decodes to as hexadecimal text are not the
    bytes of the computed digest, the trace of the invocation holds no
    call of [fetch]. *)
Theorem C1_exchange_only_after_verification
  (env : Env) (upstream : Upstream) (req : Request) :
  ~ hmac_verified env req ->
  outbound_calls (trace (run env upstream req)) = [].
Proof.
  intros Hnv. rewrite run_outcome. cbn [trace].
  apply outcome_unverified_calls, Hnv.
Qed.

Lemma C1_witness :
  ~ hmac_verified Examples.env Examples.wrong_hmac /\
  outbound_calls
    (trace (run Examples.env (Examples.grants "read_orders")
              Examples.wrong_hmac)) = [].
Proof.
  assert (Hnv : ~ hmac_verified Examples.env Examples.wrong_hmac).
  { intros (key & h & Hk & Hh & E).
    injection Hk as <-. vm_compute in Hh. injection Hh as <-.
    vm_compute in E. discriminate E. }
  split; [exact Hnv|].
  apply (C1_exchange_only_after_verification Examples.env
           (Examples.grants "read_orders") Examples.wrong_hmac).
  exact Hnv.
Defined.

(** A supplied [hmac] that decodes to 32 bytes other than the digest is
    answered with 401 and the JSON error, and nothing but the computation
    of the digest has happened. *)
Lemma invalid_signature_401
  (env : Env) (upstream : Upstream) (req : Request) (key h : string) :
  method req = "GET" ->
  SHOPIFY_CLIENT_SECRET env = Some key ->
  lookup "hmac" (query req) = Some h ->
  List.length (from_hex h) = 32%nat ->
  from_hex h <> digest key req ->
  run env upstream req =
  mkState (json_response 401 "Invalid HMAC")
    [CreateHmac (Some key) (canonical_message (query req))].
Proof.
  intros Hm Hk Hh Hl Hne.
  rewrite run_outcome, (outcome_mismatch _ _ _ key h) by assumption.
  reflexivity.
Qed.

(** C2, at the failing input: the callback of the examples with
    [hmac=abcd].  The two decoded bytes are compared with the 32 bytes of
    the digest, [timingSafeEqual] throws, and the handler answers 500 with
    the error document that shows the message of the [RangeError]; it does
    not answer 401. *)
Theorem C2_short_hmac_answers_500 :
  let st := run Examples.env (Examples.grants "read_orders")
              Examples.short_hmac in
  lookup "hmac" (query Examples.short_hmac) = Some "abcd" /\
  List.length (from_hex "abcd") = 2%nat /\
  to_hex (digest Examples.secret Examples.short_hmac) = Examples.signature /\
  statusCode (res st) = 500 /\
  statusCode (res st) <> 401 /\
  res st = error_page (RangeError ERR_TIMING_SAFE_EQUAL_LENGTH).
Proof.
  vm_compute. repeat split; discriminate.
Qed.

(** C10. A GET request without [hmac], or with an [hmac] that decodes to
    a number of bytes other than 32, goes through the catch block: status
    500 (not 401), the HTML error document, and no call of [fetch]. *)
Theorem C10_missing_or_short_hmac_answers_500
  (env : Env) (upstream : Upstream) (req : Request) :
  method req = "GET" ->
  (lookup "hmac" (query req) = None \/
   exists h, lookup "hmac" (query req) = Some h /\
             List.length (from_hex h) <> 32%nat) ->
  let st := run env upstream req in
  statusCode (res st) = 500 /\
  statusCode (res st) <> 401 /\
  (exists e, res st = error_page e) /\
  is_html_document (res st) = true /\
  outbound_calls (trace st) = [].
Proof.
  intros Hm Hbad st.
  assert (E : exists e before,
             outcome env upstream req = caught e before /\
             outbound_calls before = []).
  { destruct (SHOPIFY_CLIENT_SECRET env) as [key|] eqn:Hk.
    - destruct Hbad as [Hh|(h & Hh & Hl)].
      + eexists _, _. split; [apply (outcome_no_hmac _ _ _ key); assumption|].
        reflexivity.
      + eexists _, _.
        split; [apply (outcome_length _ _ _ key h); assumption|].
        reflexivity.
    - eexists _, _. split; [apply outcome_no_secret; assumption|].
      reflexivity. }
  destruct E as (e & before & E & Hb).
  subst st. rewrite run_outcome, E. unfold caught. cbn [fst snd res trace].
  split; [reflexivity|]. split; [discriminate|].
  split; [exists e; reflexivity|]. split; [apply error_page_is_html|].
  unfold outbound_calls in *. rewrite filter_app, Hb. reflexivity.
Qed.

Lemma C10_witness :
  method Examples.no_hmac = "GET" /\
  (lookup "hmac" (query Examples.no_hmac) = None \/
   exists h, lookup "hmac" (query Examples.no_hmac) = Some h /\
             List.length (from_hex h) <> 32%nat) /\
  let st := run Examples.env (Examples.grants "read_orders")
              Examples.no_hmac in
  statusCode (res st) = 500 /\
  statusCode (res st) <> 401 /\
  (exists e, res st = error_page e) /\
  is_html_document (res st) = true /\
  outbound_calls (trace st) = [].
Proof.
  split; [reflexivity|]. split; [left; reflexivity|].
  apply (C10_missing_or_short_hmac_answers_500 Examples.env
           (Examples.grants "read_orders") Examples.no_hmac).
  - reflexivity.
  - left. reflexivity.
Defined.

(* ================================================================== *)
(** ** The method gate *)

(** C6. A request whose method is not GET is answered with 405 and
    nothing else happens: the invocation adds nothing to the trace, so
    there is no computation of an HMAC and no call of [fetch]. *)
Theorem C6_method_gate
  (env : Env) (upstream : Upstream) (req : Request) (history : list Event) :
  method req <> "GET" ->
  let st := invoke env upstream req history in
  statusCode (res st) = 405 /\
  trace st = history /\
  filter is_hmac (trace (run env upstream req)) = [] /\
  outbound_calls (trace (run env upstream req)) = [].
Proof.
  intros Hm st. subst st.
  rewrite run_outcome, invoke_outcome, outcome_not_get by exact Hm.
  cbn [fst snd res trace]. rewrite app_nil_r. repeat split; reflexivity.
Qed.

Lemma C6_witness :
  method Examples.posted <> "GET" /\
  let st := invoke Examples.env (Examples.grants "read_orders")
              Examples.posted [] in
  statusCode (res st) = 405 /\
  trace st = [] /\
  filter is_hmac
    (trace (run Examples.env (Examples.grants "read_orders")
              Examples.posted)) = [] /\
  outbound_calls
    (trace (run Examples.env (Examples.grants "read_orders")
              Examples.posted)) = [].
Proof.
  split; [discriminate|].
  apply (C6_method_gate Examples.env (Examples.grants "read_orders")
           Examples.posted []).
  discriminate.
Defined.

(* ================================================================== *)
(** ** The canonical message *)

Lemma signed_names_filter (l : list string) :
  filter (fun key => negb (key =? "signature")%string
                     && negb (key =? "hmac")%string) l =
  filter (fun n => negb (carries_signature n)) l.
Proof.
  apply filter_ext. intros n. unfold carries_signature.
  destruct (n =? "hmac")%string, (n =? "signature")%string; reflexivity.
Qed.


(** The order in which the parameters arrive does not matter. *)
Lemma lookup_in_nodup (q : list (string * string)) (k v : string) :
  NoDup (map fst q) -> In (k, v) q -> lookup k q = Some v.
Proof.
  induction q as [|[k' v'] q IH]; intros Hnd Hin; [contradiction|].
  inversion Hnd as [|? ? Hni Hnd']; subst. simpl.
  destruct Hin as [E|Hin].
  - injection E as -> ->. rewrite String.eqb_refl. reflexivity.
  - destruct (String.eqb_spec k' k) as [->|_]; [|apply IH; assumption].
    exfalso. apply Hni. apply (in_map fst) in Hin. exact Hin.
Qed.

Lemma lookup_perm (q q' : list (string * string)) (k : string) :
  NoDup (map fst q) -> Permutation q q' -> lookup k q = lookup k q'.
Proof.
  intros Hnd Hp.
  assert (Hnd' : NoDup (map fst q'))
    by (apply (Permutation_NoDup (Permutation_map fst Hp)), Hnd).
  destruct (lookup k q) as [v|] eqn:E.
  - symmetry. apply lookup_in_nodup; [exact Hnd'|].
    apply (Permutation_in _ Hp).
    clear -E. induction q as [|[k' v'] q IH]; [discriminate|].
    simpl in E. destruct (String.eqb_spec k' k) as [->|_].
    + injection E as ->. left. reflexivity.
    + right. apply IH, E.
  - destruct (lookup k q') as [v|] eqn:E'; [|reflexivity].
    assert (Hin : In (k, v) q).
    { apply (Permutation_in _ (Permutation_sym Hp)).
      clear -E'. induction q' as [|[k' v'] q' IH]; [discriminate|].
      simpl in E'. destruct (String.eqb_spec k' k) as [->|_].
      - injection E' as ->. left. reflexivity.
      - right. apply IH, E'. }
    rewrite (lookup_in_nodup q k v Hnd Hin) in E. discriminate.
Qed.

Lemma filter_perm {A} (f : A -> bool) (l l' : list A) :
  Permutation l l' -> Permutation (filter f l) (filter f l').
Proof.
  induction 1 as [|x l l' _ IH|x y l|l l' l'' _ IH1 _ IH2]; simpl.
  - constructor.
  - destruct (f x); [apply perm_skip|]; exact IH.
  - destruct (f x), (f y); try reflexivity. apply perm_swap.
  - etransitivity; eassumption.
Qed.

Lemma canonical_message_order_independent (q q' : list (string * string)) :
  NoDup (map fst q) -> Permutation q q' ->
  canonical_message q = canonical_message q'.
Proof.
  intros Hnd Hp. unfold canonical_message, Object_keys.
  assert (E : js_sort (filter
               (fun key => negb (key =? "signature")%string
                           && negb (key =? "hmac")%string) (map fst q))
            = js_sort (filter
               (fun key => negb (key =? "signature")%string
                           && negb (key =? "hmac")%string) (map fst q'))).
  { apply sorted_perm_unique; try apply js_sort_sorted.
    rewrite <- !js_sort_perm. apply filter_perm, Permutation_map, Hp. }
  rewrite E. f_equal. apply map_ext. intros k.
  rewrite (lookup_perm q q' k Hnd Hp). reflexivity.
Qed.

(* ================================================================== *)
(** ** The failure responses *)

Lemma errorHTML_includes (m : string) : includes m (errorHTML m) = true.
Proof.
  unfold errorHTML. do 5 apply includes_app_r.
  apply (includes_app m EmptyString).
Qed.

(** C4, as stated, fails: a POST and a GET with a wrong signature are
    answered with 405 and 401, and the body is the JSON text of an object
    with the property [error], sent as [application/json]; it is no HTML
    document. *)
Lemma C4_counterexample :
  let posted := res (run Examples.env (Examples.grants "read_orders")
                       Examples.posted) in
  let wrong := res (run Examples.env (Examples.grants "read_orders")
                      Examples.wrong_hmac) in
  (statusCode posted = 405 /\
   posted = json_response 405 "Method not allowed" /\
   content_type posted = Some "application/json; charset=utf-8" /\
   includes "<html>" (body_text posted) = false /\
   is_html_document posted = false) /\
  (statusCode wrong = 401 /\
   wrong = json_response 401 "Invalid HMAC" /\
   content_type wrong = Some "application/json; charset=utf-8" /\
   includes "<html>" (body_text wrong) = false /\
   is_html_document wrong = false).
Proof. vm_compute. repeat split. Qed.

(** C4, amended: each failure kind has its status; MethodNotAllowed (405)
    and InvalidSignature (401) carry a JSON body with the property
    [error]; TokenExchangeFailed and UnexpectedFailure (500: no secret
    configured, rejected call, any other caught exception) carry the
    rendered HTML error document with the message of the error. *)
Theorem C4_failure_responses
  (env : Env) (upstream : Upstream) (req : Request) :
  let r := res (run env upstream req) in
  (method req <> "GET" -> r = json_response 405 "Method not allowed") /\
  (forall key h,
      method req = "GET" ->
      SHOPIFY_CLIENT_SECRET env = Some key ->
      lookup "hmac" (query req) = Some h ->
      List.length (from_hex h) = 32%nat ->
      from_hex h <> digest key req ->
      r = json_response 401 "Invalid HMAC") /\
  (forall key h resp,
      method req = "GET" ->
      SHOPIFY_CLIENT_SECRET env = Some key ->
      lookup "hmac" (query req) = Some h ->
      from_hex h = digest key req ->
      exchange_call env upstream req = Resolved resp ->
      ok resp = false ->
      r = error_page (exchange_failed resp)) /\
  (forall key h e,
      method req = "GET" ->
      SHOPIFY_CLIENT_SECRET env = Some key ->
      lookup "hmac" (query req) = Some h ->
      from_hex h = digest key req ->
      exchange_call env upstream req = Rejected e ->
      r = error_page e) /\
  (method req = "GET" -> SHOPIFY_CLIENT_SECRET env = None ->
   r = error_page (TypeError ERR_INVALID_KEY)) /\
  (statusCode r = 500 ->
   (exists e, r = error_page e /\
              includes (message e) (body_text r) = true) /\
   is_html_document r = true) /\
  (statusCode r = 405 \/ statusCode r = 401 -> is_html_document r = false).
Proof.
  intros r. subst r. rewrite run_outcome. cbn [res].
  repeat apply conj.
  - intros Hm. rewrite outcome_not_get by exact Hm. reflexivity.
  - intros key h Hm Hk Hh Hl Hne.
    rewrite (outcome_mismatch _ _ _ key h) by assumption. reflexivity.
  - intros key h resp Hm Hk Hh Hv Hc Hok.
    rewrite (outcome_verified _ _ _ key h) by assumption.
    rewrite Hc, Hok. reflexivity.
  - intros key h e Hm Hk Hh Hv Hc.
    rewrite (outcome_verified _ _ _ key h) by assumption.
    rewrite Hc. reflexivity.
  - intros Hm Hk. rewrite outcome_no_secret by assumption. reflexivity.
  - intros Hs.
    destruct (outcome_kinds env upstream req) as [E|[E|[(e & E)|(s & E)]]];
      rewrite E in *; try discriminate Hs.
    split; [|apply error_page_is_html].
    exists e. split; [reflexivity | apply errorHTML_includes].
  - intros Hs.
    destruct (outcome_kinds env upstream req) as [E|[E|[(e & E)|(s & E)]]];
      rewrite E in *; try reflexivity;
      destruct Hs as [Hs|Hs]; discriminate Hs.
Qed.

(** C7. When the token endpoint answers with a status outside 200 to 299,
    the handler answers 500 with the HTML error document; the document
    shows [Token exchange failed:] followed by the status text of the
    endpoint; the success page and the success log line are not produced,
    and the trace holds the digest, the call and the error line only. *)
Theorem C7_exchange_refused
  (env : Env) (upstream : Upstream) (req : Request)
  (key h : string) (resp : FetchResponse) :
  method req = "GET" ->
  SHOPIFY_CLIENT_SECRET env = Some key ->
  lookup "hmac" (query req) = Some h ->
  from_hex h = digest key req ->
  exchange_call env upstream req = Resolved resp ->
  ok resp = false ->
  let st := run env upstream req in
  statusCode (res st) = 500 /\
  body (res st)
  = Some (errorHTML ("Token exchange failed: " ++ statusText resp)) /\
  includes ("Token exchange failed: " ++ statusText resp)
    (body_text (res st)) = true /\
  is_html_document (res st) = true /\
  filter is_log (trace st) = [] /\
  trace st =
  [CreateHmac (Some key) (canonical_message (query req));
   Fetch (token_url (lookup "shop" (query req)))
     (token_init (SHOPIFY_CLIENT_ID env) (Some key)
        (lookup "code" (query req)));
   ConsoleError "OAuth callback error:" (exchange_failed resp)].
Proof.
  intros Hm Hk Hh Hv Hc Hok st. subst st.
  rewrite run_outcome, (outcome_verified _ _ _ key h) by assumption.
  rewrite Hc, Hok. unfold caught. cbn [fst snd res trace].
  repeat apply conj;
    first [apply errorHTML_includes | apply error_page_is_html | reflexivity].
Qed.

Lemma C7_witness :
  let env := Examples.env in
  let req := Examples.signed in
  let resp := mkFetchResponse 403 "Forbidden" BodyNull in
  let st := run env Examples.refuses req in
  statusCode (res st) = 500 /\
  body (res st) = Some (errorHTML "Token exchange failed: Forbidden") /\
  includes "Token exchange failed: Forbidden" (body_text (res st)) = true /\
  is_html_document (res st) = true /\
  filter is_log (trace st) = [] /\
  trace st =
  [CreateHmac (Some Examples.secret) (canonical_message (query req));
   Fetch (token_url (lookup "shop" (query req)))
     (token_init (SHOPIFY_CLIENT_ID env) (Some Examples.secret)
        (lookup "code" (query req)));
   ConsoleError "OAuth callback error:" (exchange_failed resp)].
Proof.
  apply (C7_exchange_refused Examples.env Examples.refuses Examples.signed
           Examples.secret Examples.signature
           (mkFetchResponse 403 "Forbidden" BodyNull)).
  - reflexivity.
  - reflexivity.
  - reflexivity.
  - vm_compute. reflexivity.
  - reflexivity.
  - reflexivity.
Defined.

(* ================================================================== *)
(** ** The success page *)

Lemma successHTML_includes_shop (shop scope : string) :
  includes shop (successHTML shop scope) = true.
Proof. unfold successHTML. apply includes_app. Qed.

Lemma successHTML_includes_scope (shop scope : string) :
  includes scope (successHTML shop scope) = true.
Proof.
  unfold successHTML.
  repeat first [apply includes_app | apply includes_app_r].
Qed.

(** C5, as stated, fails: the endpoint grants a scope that is markup, and
    the success page carries it as it came, between the tags of the
    [span]; the escaped text is not in the page. *)
Lemma C5_counterexample :
  let st := run Examples.env (Examples.grants Examples.markup)
              Examples.signed in
  statusCode (res st) = 200 /\
  body (res st) = Some (successHTML "a.myshopify.com" Examples.markup) /\
  includes ("<span class=" ++ quoted "code" ++ ">"
            ++ "<script>alert(1)</script>" ++ "</span>")
    (body_text (res st)) = true /\
  includes "&lt;script&gt;" (body_text (res st)) = false.
Proof. vm_compute. repeat split. Qed.

(** C5, amended: after a successful exchange the page is the template
    with the shop parameter and the granted scope put in as they are,
    without any escaping; both occur in the page character for
    character. *)
Theorem C5_success_page_verbatim
  (env : Env) (upstream : Upstream) (req : Request)
  (key h : string) (resp : FetchResponse) (token scope : option string) :
  method req = "GET" ->
  SHOPIFY_CLIENT_SECRET env = Some key ->
  lookup "hmac" (query req) = Some h ->
  from_hex h = digest key req ->
  exchange_call env upstream req = Resolved resp ->
  ok resp = true ->
  json_body resp = BodyValue token scope ->
  let st := run env upstream req in
  let shop := lookup "shop" (query req) in
  statusCode (res st) = 200 /\
  content_type (res st) = Some "text/html" /\
  body (res st) = Some (successHTML (show shop) (show scope)) /\
  includes (show shop) (body_text (res st)) = true /\
  includes (show scope) (body_text (res st)) = true.
Proof.
  intros Hm Hk Hh Hv Hc Hok Hb st shop. subst st shop.
  rewrite run_outcome, (outcome_verified _ _ _ key h) by assumption.
  rewrite Hc, Hok, Hb. cbn [fst snd res trace].
  unfold success_page, body_text. cbn [statusCode body].
  repeat apply conj; try reflexivity.
  - apply successHTML_includes_shop.
  - apply successHTML_includes_scope.
Qed.

Lemma C5_witness :
  let st := run Examples.env (Examples.grants Examples.markup)
              Examples.signed in
  let shop := lookup "shop" (query Examples.signed) in
  statusCode (res st) = 200 /\
  content_type (res st) = Some "text/html" /\
  body (res st) = Some (successHTML (show shop) (show (Some Examples.markup))) /\
  includes (show shop) (body_text (res st)) = true /\
  includes (show (Some Examples.markup)) (body_text (res st)) = true.
Proof.
  apply (C5_success_page_verbatim Examples.env
           (Examples.grants Examples.markup) Examples.signed
           Examples.secret Examples.signature
           (mkFetchResponse 200 "OK"
              (BodyValue (Some "tok") (Some Examples.markup)))
           (Some "tok") (Some Examples.markup)).
  - reflexivity.
  - reflexivity.
  - reflexivity.
  - vm_compute. reflexivity.
  - reflexivity.
  - reflexivity.
  - reflexivity.
Defined.

(* ================================================================== *)
(** ** The client secret and the response *)




(* ================================================================== *)
(** ** Replaying a request *)

Lemma invoke_run (env : Env) (upstream : Upstream) (req : Request)
  (history : list Event) :
  res (invoke env upstream req history) = res (run env upstream req) /\
  trace (invoke env upstream req history)
  = (history ++ trace (run env upstream req))%list.
Proof. rewrite run_outcome, invoke_outcome. split; reflexivity. Qed.

(** C9. The answer to a request depends on the request, the
    configuration and the remote side only: in any sequence of requests
    served by one process, after any history, every response is the
    response of the request served on its own, and an invocation only
    appends its own calls to the trace.  Two runs of one request give the
    same status and the same content. *)
Theorem C9_replay_same_response
  (env : Env) (upstream : Upstream) (reqs : list Request)
  (history : list Event) :
  fst (serve env upstream reqs history)
  = map (fun req => res (run env upstream req)) reqs /\
  snd (serve env upstream reqs history)
  = (history ++ flat_map (fun req => trace (run env upstream req)) reqs)%list.
Proof.
  revert history. induction reqs as [|req rest IH]; intros history.
  - simpl. rewrite app_nil_r. split; reflexivity.
  - simpl.
    destruct (IH (trace (invoke env upstream req history))) as [IHr IHt].
    destruct (serve env upstream rest _) as [rs h'].
    destruct (invoke_run env upstream req history) as [Er Et].
    cbn [fst snd] in *. rewrite Er, IHr, IHt, Et, app_assoc.
    split; reflexivity.
Qed.

(* ================================================================== *)
(** ** Further behaviour of the handler *)

(** Every invocation takes one of the paths. *)
Lemma outcome_path (env : Env) (upstream : Upstream) (req : Request) :
  path env upstream req (outcome env upstream req).
Proof.
  destruct (String.eqb_spec (method req) "GET") as [Hm|Hm];
    [|rewrite outcome_not_get by exact Hm; apply path_method, Hm].
  assert (Eh : forall k, SHOPIFY_CLIENT_SECRET env = k ->
                 CreateHmac k (canonical_message (query req)) = hashed env req)
    by (intros k <-; reflexivity).
  destruct (SHOPIFY_CLIENT_SECRET env) as [key|] eqn:Hk.
  2:{ rewrite outcome_no_secret, (Eh None) by (assumption || reflexivity).
      apply path_no_secret; assumption. }
  destruct (lookup "hmac" (query req)) as [h|] eqn:Hh.
  2:{ rewrite (outcome_no_hmac _ _ _ key), (Eh (Some key)) by (assumption || reflexivity).
      apply (path_no_hmac _ _ _ key); assumption. }
  destruct (Nat.eq_dec (List.length (from_hex h)) 32) as [Hl|Hl].
  2:{ rewrite (outcome_length _ _ _ key h), (Eh (Some key)) by (assumption || reflexivity).
      apply (path_length _ _ _ key h); assumption. }
  destruct (list_eq_dec Byte.byte_eq_dec (from_hex h) (digest key req))
    as [Hv|Hv].
  2:{ rewrite (outcome_mismatch _ _ _ key h), (Eh (Some key)) by (assumption || reflexivity).
      apply (path_mismatch _ _ _ key h); assumption. }
  rewrite (outcome_verified _ _ _ key h) by assumption.
  assert (Ec : [CreateHmac (Some key) (canonical_message (query req));
                Fetch (token_url (lookup "shop" (query req)))
                  (token_init (SHOPIFY_CLIENT_ID env) (Some key)
                     (lookup "code" (query req)))] = called env req)
    by (unfold called, hashed; rewrite Hk; reflexivity).
  rewrite Ec.
  destruct (exchange_call env upstream req) as [e|r] eqn:Hu;
    [apply (path_rejected _ _ _ key h); assumption|].
  destruct (ok r) eqn:Hok;
    [|apply (path_refused _ _ _ key h); assumption].
  destruct (json_body r) as [e| |a s] eqn:Hb.
  - apply (path_not_json _ _ _ key h r); assumption.
  - apply (path_null _ _ _ key h r); assumption.
  - apply (path_success _ _ _ key h r a s); assumption.
Qed.

(** The paths of one invocation, each with its conditions as
    hypotheses. *)
Ltac by_path env upstream req :=
  let o := fresh "o" in
  let P := fresh "P" in
  pose proof (outcome_path env upstream req) as P;
  remember (outcome env upstream req) as o;
  destruct P.

Lemma handler_completes (env : Env) (upstream : Upstream) (req : Request)
  (st : State) :
  fst (handler env upstream req st) = Normal tt.
Proof.
  unfold handler.
  destruct (method req =? "GET")%string; cbn [negb]; [|reflexivity].
  unfold try_catch, bind, createHmac_sha256_hex, emit.
  destruct (SHOPIFY_CLIENT_SECRET env) as [key|]; cbn; [|reflexivity].
  destruct (lookup "hmac" (query req)) as [h|]; cbn; [|reflexivity].
  unfold timingSafeEqual.
  destruct (Nat.eqb _ _); cbn; [|reflexivity].
  destruct (CRYPTO_memcmp _ _ =? 0); cbn; [|reflexivity].
  unfold fetch, bind, emit. cbn.
  destruct (upstream _ _) as [e|r]; cbn; [reflexivity|].
  destruct (ok r); cbn; [|reflexivity].
  unfold Response_json.
  destruct (json_body r) as [e| |a s]; reflexivity.
Qed.

(** X1. The handler never lets an exception out, from any state of the
    response and of the trace, and every invocation sends one answer: a
    body with one of the statuses 200, 401, 405, 500, as an HTML document
    for 200 and 500 and as JSON for 401 and 405. *)
Theorem X1_always_answers
  (env : Env) (upstream : Upstream) (req : Request) (st : State) :
  fst (handler env upstream req st) = Normal tt /\
  let r := res (invoke env upstream req (trace st)) in
  body r <> None /\
  (((statusCode r = 200 \/ statusCode r = 500) /\
    content_type r = Some "text/html" /\ is_html_document r = true) \/
   ((statusCode r = 401 \/ statusCode r = 405) /\
    content_type r = Some "application/json; charset=utf-8")).
Proof.
  split; [apply handler_completes|].
  rewrite invoke_outcome. cbn [res].
  destruct (outcome_kinds env upstream req) as [E|[E|[(e & E)|(s & E)]]];
    rewrite E.
  - split; [discriminate|]. right. split; [right|]; reflexivity.
  - split; [discriminate|]. right. split; [left|]; reflexivity.
  - split; [discriminate|]. left.
    split; [right; reflexivity|]. split; [reflexivity|].
    apply error_page_is_html.
  - split; [discriminate|]. left.
    split; [left; reflexivity|]. split; [reflexivity|].
    apply success_page_is_html.
Qed.



(** X3. The console tells the outcome: the success line
    [App installed for ...] is written once when the status is 200 and
    not otherwise, the error line once when the status is 500 and not
    otherwise; a 401 or a 405 leaves no line on the console. *)
Theorem X3_console_lines
  (env : Env) (upstream : Upstream) (req : Request) :
  let st := run env upstream req in
  List.length (filter is_log (trace st))
  = (if (statusCode (res st) =? 200)%Z then 1%nat else 0%nat) /\
  List.length (filter is_console_error (trace st))
  = (if (statusCode (res st) =? 500)%Z then 1%nat else 0%nat).
Proof.
  intros st. subst st. rewrite run_outcome. cbn [res trace].
  by_path env upstream req; split; reflexivity.
Qed.

(** X4. One invocation calls the endpoint at most once, and a call it
    makes is the POST of the source: to
    [https://<shop>/admin/oauth/access_token], with the JSON content type
    and the JSON text of client id, client secret and code as body. *)
Theorem X4_single_post
  (env : Env) (upstream : Upstream) (req : Request) :
  let calls := outbound_calls (trace (run env upstream req)) in
  (List.length calls <= 1)%nat /\
  forall url init,
    In (Fetch url init) calls ->
    url = "https://" ++ show (lookup "shop" (query req))
          ++ "/admin/oauth/access_token" /\
    init_method init = "POST" /\
    init_headers init = [("Content-Type", "application/json")] /\
    init_body init
    = JSON_stringify
        [("client_id", SHOPIFY_CLIENT_ID env);
         ("client_secret", SHOPIFY_CLIENT_SECRET env);
         ("code", lookup "code" (query req))].
Proof.
  intros calls. subst calls. rewrite run_outcome. cbn [trace].
  by_path env upstream req; cbn; (split; [lia|]); intros url init Hin;
    repeat (destruct Hin as [Hin|Hin]; [|try contradiction]);
    try contradiction;
    injection Hin as <- <-; repeat split.
Qed.

Lemma exchange_call_with_token (env : Env) (upstream : Upstream)
  (req : Request) (token : option string) :
  exchange_call env (fun url init => with_token token (upstream url init)) req
  = with_token token (exchange_call env upstream req).
Proof. reflexivity. Qed.

(** X5. The access token is thrown away: whatever [access_token] the
    endpoint sends, the response, the console lines and the calls of the
    invocation are the same; the token is neither shown nor logged. *)
Theorem X5_access_token_unused
  (env : Env) (upstream : Upstream) (req : Request) (token : option string) :
  run env (fun url init => with_token token (upstream url init)) req
  = run env upstream req.
Proof.
  rewrite !run_outcome. f_equal; f_equal.
  all: unfold outcome;
    destruct (method req =? "GET")%string; cbn [negb]; [|reflexivity];
    destruct (SHOPIFY_CLIENT_SECRET env) as [key|]; [|reflexivity];
    destruct (lookup "hmac" (query req)) as [h|]; [|reflexivity];
    destruct (Nat.eqb _ 32); cbn [negb]; [|reflexivity];
    destruct (CRYPTO_memcmp _ _ =? 0); cbn [negb]; [|reflexivity];
    cbv zeta;
    destruct (upstream _ _) as [e|r]; [reflexivity|];
    unfold with_token;
    destruct (json_body r) as [e| |a s] eqn:Hb; cbn [ok status json_body];
    try rewrite Hb; try reflexivity;
    fold (ok r); destruct (ok r); reflexivity.
Qed.

(* ================================================================== *)
(** ** What the check accepts *)

(** The response and the calls depend on the request through its method,
    its canonical message, its [shop] and [code], and the bytes its
    [hmac] decodes to. *)
Lemma outcome_congruence (env : Env) (upstream : Upstream)
  (req1 req2 : Request) :
  method req1 = method req2 ->
  canonical_message (query req1) = canonical_message (query req2) ->
  lookup "shop" (query req1) = lookup "shop" (query req2) ->
  lookup "code" (query req1) = lookup "code" (query req2) ->
  option_map from_hex (lookup "hmac" (query req1))
  = option_map from_hex (lookup "hmac" (query req2)) ->
  outcome env upstream req1 = outcome env upstream req2.
Proof.
  intros Hm Hc Hs Hcode Hh. unfold outcome, digest.
  rewrite Hm, Hc, Hs, Hcode.
  destruct (lookup "hmac" (query req1)) as [h1|],
           (lookup "hmac" (query req2)) as [h2|];
    try discriminate Hh; [|reflexivity].
  injection Hh as ->. reflexivity.
Qed.

Lemma run_congruence (env : Env) (upstream : Upstream)
  (req1 req2 : Request) :
  outcome env upstream req1 = outcome env upstream req2 ->
  run env upstream req1 = run env upstream req2.
Proof. intros E. rewrite !run_outcome, E. reflexivity. Qed.

Lemma from_hex_pair (c1 c2 : ascii) (rest : string) :
  from_hex (String c1 (String c2 rest)) =
  match unhex c1, unhex c2 with
  | Some a, Some b => byte_of_Z (16 * a + b) :: from_hex rest
  | _, _ => []
  end.
Proof. reflexivity. Qed.

Lemma from_hex_to_hex_app_cons (x : byte) (rest : Buffer) (t : string) :
  from_hex (to_hex (x :: rest) ++ t) = x :: from_hex (to_hex rest ++ t).
Proof. destruct x; reflexivity. Qed.

(** Text after the digits of a buffer is decoded on its own. *)
Lemma from_hex_to_hex_app (b : Buffer) (t : string) :
  from_hex (to_hex b ++ t) = (b ++ from_hex t)%list.
Proof.
  induction b as [|x rest IH]; [reflexivity|].
  rewrite from_hex_to_hex_app_cons, IH. reflexivity.
Qed.

Lemma unhex_upper (c : ascii) : unhex (upper_char c) = unhex c.
Proof. destruct c as [[] [] [] [] [] [] [] []]; reflexivity. Qed.

Lemma from_hex_upper_both (s : string) :
  from_hex (to_upper s) = from_hex s /\
  forall c, from_hex (to_upper (String c s)) = from_hex (String c s).
Proof.
  induction s as [|d s [IH1 IH2]].
  - split; [reflexivity | intros c; reflexivity].
  - split; [apply IH2|]. intros c.
    cbn [to_upper]. rewrite !from_hex_pair, !unhex_upper, IH1. reflexivity.
Qed.

Lemma from_hex_upper (s : string) : from_hex (to_upper s) = from_hex s.
Proof. apply from_hex_upper_both. Qed.

(** Changing the value of a parameter keeps the names and the values of
    the other parameters. *)
Lemma map_value_keys (key : string) (f : string -> string)
  (q : list (string * string)) :
  map fst (map_value key f q) = map fst q.
Proof.
  unfold map_value. rewrite map_map. apply map_ext. intros [k v]. cbn.
  destruct (k =? key)%string; reflexivity.
Qed.

Lemma lookup_map_value (key k : string) (f : string -> string)
  (q : list (string * string)) :
  lookup k (map_value key f q) =
  if (k =? key)%string then option_map f (lookup k q) else lookup k q.
Proof.
  induction q as [|[k' v'] q IH]; cbn [map_value map lookup fst snd].
  - destruct (k =? key)%string; reflexivity.
  - fold (map_value key f q).
    destruct (String.eqb_spec k' key) as [->|Hk']; cbn [lookup].
    + destruct (String.eqb_spec key k) as [<-|Hk].
      * rewrite String.eqb_refl. reflexivity.
      * exact IH.
    + destruct (String.eqb_spec k' k) as [->|Hk].
      * apply String.eqb_neq in Hk'. rewrite Hk'. reflexivity.
      * exact IH.
Qed.

(** The canonical message looks at the parameters other than [hmac] and
    [signature] only. *)
Lemma canonical_message_ext (q q' : list (string * string)) :
  filter (fun n => negb (carries_signature n)) (map fst q)
  = filter (fun n => negb (carries_signature n)) (map fst q') ->
  (forall k, carries_signature k = false -> lookup k q = lookup k q') ->
  canonical_message q = canonical_message q'.
Proof.
  intros Hk Hv. unfold canonical_message, Object_keys.
  rewrite !signed_names_filter, Hk. f_equal.
  apply map_ext_in. intros k Hin.
  apply (Permutation_in _ (Permutation_sym (js_sort_perm _))) in Hin.
  apply filter_In in Hin. destruct Hin as [_ Hin].
  apply negb_true_iff in Hin. rewrite (Hv k Hin). reflexivity.
Qed.

Lemma canonical_message_map_value (key : string) (f : string -> string)
  (q : list (string * string)) :
  carries_signature key = true ->
  canonical_message (map_value key f q) = canonical_message q.
Proof.
  intros Hs. apply canonical_message_ext.
  - rewrite map_value_keys. reflexivity.
  - intros k Hk. rewrite lookup_map_value.
    destruct (String.eqb_spec k key) as [->|_]; [congruence | reflexivity].
Qed.



(** X7. The check looks at the first 64 digits only: a callback whose
    [hmac] is the digest followed by any text that does not start with
    two hexadecimal digits passes the check and the endpoint is called. *)
Theorem X7_text_after_digest_accepted
  (env : Env) (upstream : Upstream) (req : Request) (key junk : string) :
  method req = "GET" ->
  SHOPIFY_CLIENT_SECRET env = Some key ->
  from_hex junk = [] ->
  lookup "hmac" (query req) = Some (to_hex (digest key req) ++ junk) ->
  let st := run env upstream req in
  hmac_verified env req /\
  statusCode (res st) <> 401 /\
  List.length (outbound_calls (trace st)) = 1%nat.
Proof.
  intros Hm Hk Hj Hh st. subst st.
  assert (Hv : from_hex (to_hex (digest key req) ++ junk) = digest key req)
    by (rewrite from_hex_to_hex_app, Hj; apply app_nil_r).
  split; [exists key, (to_hex (digest key req) ++ junk); auto|].
  rewrite (verified_request_calls_endpoint _ _ _ key _ Hm Hk Hh Hv).
  rewrite run_outcome, (outcome_verified _ _ _ key _ Hm Hk Hh Hv).
  cbn [res]. split; [|reflexivity].
  destruct (exchange_call env upstream req) as [e|r]; [discriminate|].
  destruct (ok r); [|discriminate].
  destruct (json_body r); discriminate.
Qed.

Lemma X7_witness :
  let req :=
    mkRequest "GET"
      (Examples.params ++ [("hmac", (Examples.signature ++ "!tail")%string)])%list in
  let st := run Examples.env (Examples.grants "read_orders") req in
  hmac_verified Examples.env req /\
  statusCode (res st) <> 401 /\
  List.length (outbound_calls (trace st)) = 1%nat.
Proof.
  apply (X7_text_after_digest_accepted Examples.env
           (Examples.grants "read_orders")
           (mkRequest "GET"
              (Examples.params ++ [("hmac", (Examples.signature ++ "!tail")%string)])%list)
           Examples.secret "!tail").
  - reflexivity.
  - reflexivity.
  - reflexivity.
  - vm_compute. reflexivity.
Defined.

(** X8. The check does not tell the case of the digits: putting the
    letters of [hmac] in upper case changes neither the response nor the
    calls. *)
Theorem X8_hmac_case_insensitive
  (env : Env) (upstream : Upstream) (m : string)
  (q : list (string * string)) :
  run env upstream (mkRequest m (map_value "hmac" to_upper q))
  = run env upstream (mkRequest m q).
Proof.
  apply run_congruence, outcome_congruence; cbn [method query].
  - reflexivity.
  - apply canonical_message_map_value. reflexivity.
  - rewrite lookup_map_value. reflexivity.
  - rewrite lookup_map_value. reflexivity.
  - rewrite lookup_map_value. cbn.
    destruct (lookup "hmac" q) as [h|]; [|reflexivity].
    cbn. rewrite from_hex_upper. reflexivity.
Qed.

(* ================================================================== *)
(** ** What the signature covers *)

Lemma lookup_app_other (k k0 v : string) (q1 q2 : list (string * string)) :
  k <> k0 -> lookup k (q1 ++ (k0, v) :: q2) = lookup k (q1 ++ q2).
Proof.
  intros Hne. induction q1 as [|[k' v'] q1 IH]; cbn [app lookup].
  - destruct (String.eqb_spec k0 k) as [->|_]; [contradiction | reflexivity].
  - rewrite IH. reflexivity.
Qed.

Lemma canonical_message_without (k0 v : string)
  (q1 q2 : list (string * string)) :
  carries_signature k0 = true ->
  canonical_message (q1 ++ (k0, v) :: q2) = canonical_message (q1 ++ q2).
Proof.
  intros Hs. apply canonical_message_ext.
  - rewrite !map_app, !filter_app. cbn [map filter fst].
    rewrite Hs. reflexivity.
  - intros k Hk. apply lookup_app_other. congruence.
Qed.

(** X9. A [signature] parameter is outside the signature and is not
    read: adding one to a callback, with any value and at any place,
    changes neither the response nor the calls. *)
Theorem X9_signature_parameter_ignored
  (env : Env) (upstream : Upstream) (m v : string)
  (q1 q2 : list (string * string)) :
  run env upstream (mkRequest m (q1 ++ ("signature", v) :: q2))
  = run env upstream (mkRequest m (q1 ++ q2)).
Proof.
  apply run_congruence, outcome_congruence; cbn [method query].
  - reflexivity.
  - apply canonical_message_without. reflexivity.
  - apply lookup_app_other. discriminate.
  - apply lookup_app_other. discriminate.
  - rewrite lookup_app_other by discriminate. reflexivity.
Qed.

(** X10. The order of the parameters does not matter: two query objects
    with the same properties in two orders get the same response and
    cause the same calls. *)
Theorem X10_parameter_order_irrelevant
  (env : Env) (upstream : Upstream) (m : string)
  (q q' : list (string * string)) :
  NoDup (map fst q) -> Permutation q q' ->
  run env upstream (mkRequest m q) = run env upstream (mkRequest m q').
Proof.
  intros Hnd Hp.
  apply run_congruence, outcome_congruence; cbn [method query].
  - reflexivity.
  - apply canonical_message_order_independent; assumption.
  - apply lookup_perm; assumption.
  - apply lookup_perm; assumption.
  - rewrite (lookup_perm q q' "hmac" Hnd Hp). reflexivity.
Qed.

Lemma X10_witness :
  NoDup (map fst (query Examples.signed)) /\
  Permutation (query Examples.signed) MoreExamples.reordered /\
  run Examples.env (Examples.grants "read_orders")
    (mkRequest "GET" (query Examples.signed))
  = run Examples.env (Examples.grants "read_orders")
      (mkRequest "GET" MoreExamples.reordered).
Proof.
  assert (Hnd : NoDup (map fst (query Examples.signed))).
  { cbn. repeat constructor; cbn; intuition discriminate. }
  assert (Hp : Permutation (query Examples.signed) MoreExamples.reordered).
  { cbn. unfold MoreExamples.reordered.
    apply Permutation_sym, Permutation_cons_app with
      (l1 := [("shop", "a.myshopify.com"); ("code", "xyz"); ("state", "abc")])
      (l2 := @nil (string * string)).
    cbn. apply Permutation_sym, (Permutation_rev
      [("shop", "a.myshopify.com"); ("code", "xyz"); ("state", "abc")]). }
  split; [exact Hnd|]. split; [exact Hp|].
  apply (X10_parameter_order_irrelevant Examples.env
           (Examples.grants "read_orders") "GET"
           (query Examples.signed) MoreExamples.reordered Hnd Hp).
Defined.





(** X12. A callback that carries no parameter besides [hmac] and
    [signature] signs the empty message. *)
Theorem X12_empty_message (q : list (string * string)) :
  forallb carries_signature (map fst q) = true ->
  canonical_message q = EmptyString.
Proof.
  intros Hall. unfold canonical_message, Object_keys.
  rewrite signed_names_filter.
  assert (E : filter (fun n => negb (carries_signature n)) (map fst q) = []).
  { induction (map fst q) as [|k ks IH]; [reflexivity|].
    cbn in *. apply andb_true_iff in Hall. destruct Hall as [-> Hall].
    cbn. apply IH, Hall. }
  rewrite E. reflexivity.
Qed.

Lemma X12_witness :
  forallb carries_signature (map fst (query MoreExamples.bare)) = true /\
  canonical_message (query MoreExamples.bare) = EmptyString.
Proof.
  split; [reflexivity|].
  apply (X12_empty_message (query MoreExamples.bare)). reflexivity.
Defined.

(* ================================================================== *)
(** ** Signatures of the right shape, missing parameters, replays *)

Lemma lower_hex_char_cases (c : ascii) :
  is_lower_hex_char c = true ->
  In c (list_ascii_of_string "0123456789abcdef").
Proof.
  destruct c as [[] [] [] [] [] [] [] []]; intros H;
    first [discriminate H
          | cbn; repeat (first [left; reflexivity | right])].
Qed.

Lemma lower_hex_pair (c1 c2 : ascii) (rest : string) :
  is_lower_hex_char c1 = true ->
  is_lower_hex_char c2 = true ->
  exists x : byte,
    from_hex (String c1 (String c2 rest)) = x :: from_hex rest /\
    forall t, to_hex (x :: t) = String c1 (String c2 (to_hex t)).
Proof.
  intros H1 H2.
  apply lower_hex_char_cases in H1, H2. cbn in H1, H2.
  repeat (destruct H1 as [<-|H1]); try contradiction;
    repeat (destruct H2 as [<-|H2]); try contradiction;
    eexists; split; reflexivity.
Qed.

(** On an even number of lower-case digits, decoding and writing the
    digits again gives the text back; it decodes to half as many bytes. *)
Lemma lower_hex_round_trip (n : nat) (s : string) :
  String.length s = (2 * n)%nat ->
  is_lower_hex s = true ->
  to_hex (from_hex s) = s /\ List.length (from_hex s) = n.
Proof.
  revert s. induction n as [|n IH]; intros s Hlen Hhex.
  - destruct s; [split; reflexivity | discriminate Hlen].
  - destruct s as [|c1 [|c2 rest]]; try (cbn in Hlen; lia).
    cbn [is_lower_hex] in Hhex.
    apply andb_true_iff in Hhex. destruct Hhex as [H1 Hhex].
    apply andb_true_iff in Hhex. destruct Hhex as [H2 Hhex].
    destruct (lower_hex_pair c1 c2 rest H1 H2) as (x & Ex & Et).
    destruct (IH rest) as [IHt IHl]; [cbn in Hlen; lia | exact Hhex|].
    rewrite Ex, Et, IHt. cbn [List.length]. rewrite IHl.
    split; reflexivity.
Qed.

(** X13. A signature of the right shape that is not the digest is turned
    away: when [hmac] is 64 lower-case hexadecimal digits other than the
    computed hexadecimal digest, the answer is 401 with the JSON error
    [Invalid HMAC], and nothing but the digest has been computed: no
    call, no console line. *)
Theorem X13_wrong_signature_401
  (env : Env) (upstream : Upstream) (req : Request) (key h : string) :
  method req = "GET" ->
  SHOPIFY_CLIENT_SECRET env = Some key ->
  lookup "hmac" (query req) = Some h ->
  is_lower_hex h = true ->
  String.length h = 64%nat ->
  h <> to_hex (digest key req) ->
  run env upstream req =
  mkState (json_response 401 "Invalid HMAC")
    [CreateHmac (Some key) (canonical_message (query req))].
Proof.
  intros Hm Hk Hh Hhex Hlen Hne.
  destruct (lower_hex_round_trip 32 h Hlen Hhex) as [Ert El].
  apply (invalid_signature_401 _ _ _ key h); try assumption.
  intros E. apply Hne. rewrite <- E, Ert. reflexivity.
Qed.

Lemma X13_witness :
  let req :=
    mkRequest "GET" (Examples.params ++ [("hmac", MoreExamples.forged)])%list in
  run Examples.env (Examples.grants "read_orders") req =
  mkState (json_response 401 "Invalid HMAC")
    [CreateHmac (Some Examples.secret) (canonical_message (query req))].
Proof.
  apply (X13_wrong_signature_401 Examples.env
           (Examples.grants "read_orders")
           (mkRequest "GET"
              (Examples.params ++ [("hmac", MoreExamples.forged)])%list)
           Examples.secret MoreExamples.forged).
  - reflexivity.
  - reflexivity.
  - reflexivity.
  - reflexivity.
  - reflexivity.
  - vm_compute. discriminate.
Defined.

(** X14. Missing parameters and a missing client id do not stop the
    exchange.  Without [shop] the POST goes to the host [undefined];
    without [code] and without [SHOPIFY_CLIENT_ID] the JSON body leaves
    the two properties out and holds the client secret alone. *)
Theorem X14_missing_parameters_still_call
  (env : Env) (upstream : Upstream) (req : Request) (key h : string) :
  method req = "GET" ->
  SHOPIFY_CLIENT_SECRET env = Some key ->
  lookup "hmac" (query req) = Some h ->
  from_hex h = digest key req ->
  lookup "shop" (query req) = None ->
  lookup "code" (query req) = None ->
  SHOPIFY_CLIENT_ID env = None ->
  outbound_calls (trace (run env upstream req)) =
  [Fetch "https://undefined/admin/oauth/access_token"
     (mkInit "POST" [("Content-Type", "application/json")]
        ("{" ++ quoted "client_secret" ++ ":" ++ JSON_stringify_string key
             ++ "}"))].
Proof.
  intros Hm Hk Hh Hv Hs Hc Hi.
  rewrite (verified_request_calls_endpoint _ _ _ key h) by assumption.
  rewrite Hs, Hc, Hi. reflexivity.
Qed.

Lemma X14_witness :
  outbound_calls
    (trace (run (mkEnv None (Some Examples.secret))
              (Examples.grants "read_orders") MoreExamples.bare)) =
  [Fetch "https://undefined/admin/oauth/access_token"
     (mkInit "POST" [("Content-Type", "application/json")]
        ("{" ++ quoted "client_secret" ++ ":"
             ++ JSON_stringify_string Examples.secret ++ "}"))].
Proof.
  apply (X14_missing_parameters_still_call
           (mkEnv None (Some Examples.secret))
           (Examples.grants "read_orders") MoreExamples.bare
           Examples.secret
           "3cd4bf487c7965a039dde3a6ba952104a56c3a4a7136882b73b25099e8fb45b6").
  - reflexivity.
  - reflexivity.
  - reflexivity.
  - vm_compute. reflexivity.
  - reflexivity.
  - reflexivity.
  - reflexivity.
Defined.

(** X15. A callback can be replayed: the handler keeps nothing of the
    callbacks it has seen, and each of [n] copies of a callback that
    passes the check calls the endpoint again. *)
Theorem X15_replay_calls_again
  (env : Env) (upstream : Upstream) (req : Request) (key h : string)
  (n : nat) (history : list Event) :
  method req = "GET" ->
  SHOPIFY_CLIENT_SECRET env = Some key ->
  lookup "hmac" (query req) = Some h ->
  from_hex h = digest key req ->
  List.length
    (outbound_calls (snd (serve env upstream (repeat req n) history)))
  = (List.length (outbound_calls history) + n)%nat.
Proof.
  intros Hm Hk Hh Hv. revert history.
  induction n as [|n IH]; intros history; cbn [repeat serve].
  - cbn [snd]. lia.
  - specialize (IH (trace (invoke env upstream req history))).
    destruct (serve env upstream (repeat req n) _) as [rs h'].
    cbn [snd] in *. rewrite IH.
    destruct (invoke_run env upstream req history) as [_ Et].
    rewrite Et. unfold outbound_calls at 1. rewrite filter_app.
    fold (outbound_calls history).
    fold (outbound_calls (trace (run env upstream req))).
    rewrite (verified_request_calls_endpoint _ _ _ key h) by assumption.
    rewrite length_app. cbn [List.length]. lia.
Qed.

Lemma X15_witness :
  List.length
    (outbound_calls
       (snd (serve Examples.env (Examples.grants "read_orders")
               (repeat Examples.signed 3) [])))
  = (List.length (outbound_calls []) + 3)%nat.
Proof.
  apply (X15_replay_calls_again Examples.env (Examples.grants "read_orders")
           Examples.signed Examples.secret Examples.signature 3 []).
  - reflexivity.
  - reflexivity.
  - reflexivity.
  - vm_compute. reflexivity.
Defined.

Lemma to_hex_cons_shape (x : byte) (rest : Buffer) :
  String.length (to_hex (x :: rest)) = S (S (String.length (to_hex rest))) /\
  is_lower_hex (to_hex (x :: rest)) = is_lower_hex (to_hex rest).
Proof. destruct x; split; reflexivity. Qed.

Lemma to_hex_shape (b : Buffer) :
  String.length (to_hex b) = (2 * List.length b)%nat /\
  is_lower_hex (to_hex b) = true.
Proof.
  induction b as [|x rest [IHl IHh]]; [split; reflexivity|].
  destruct (to_hex_cons_shape x rest) as [El Eh].
  rewrite El, Eh, IHl. cbn [List.length]. split; [lia | exact IHh].
Qed.

(** X16. The digest the handler compares with is always well formed:
    its hexadecimal text is 64 lower-case digits, and decoding that text
    gives the 32 bytes of the digest back, so the second buffer of the
    comparison is never cut short. *)
Theorem X16_hex_digest_round_trip (key : string) (req : Request) :
  let calculatedHmac := to_hex (digest key req) in
  String.length calculatedHmac = 64%nat /\
  is_lower_hex calculatedHmac = true /\
  from_hex calculatedHmac = digest key req /\
  List.length (from_hex calculatedHmac) = 32%nat.
Proof.
  intros calculatedHmac. subst calculatedHmac.
  destruct (to_hex_shape (digest key req)) as [El Eh].
  rewrite from_hex_to_hex. unfold digest in *.
  rewrite hmac_length in *. repeat split; assumption || reflexivity.
Qed.
